(** * BOT.py: contact book with birthdays

    A shallow embedding of [BOT.py] (the [Field] classes, [Record],
    [AddressBook] and the command handlers wrapped by [input_error])
    together with the parts of the Python library the program relies on:
    [str.isdigit], [datetime.strptime] for the format ["%d.%m.%Y"],
    [date.replace], date comparison, subtraction, [weekday],
    [date + timedelta] and [strftime].

    Python strings are sequences of Unicode code points, and both
    [str.isdigit] and the [\d] of the regular expression behind [strptime]
    are Unicode aware, so a [str] is a list of code points here. *)

From Stdlib Require Import ZArith NArith List Bool Lia String Ascii.
Import ListNotations.

Set Implicit Arguments.

(** ** Python strings *)

Definition char := N.
Definition str := list char.

(** The code points of an ASCII literal. *)
Fixpoint u (s : string) : str :=
  match s with
  | EmptyString => []
  | String a s' => N_of_ascii a :: u s'
  end.

Definition str_eqb (a b : str) : bool :=
  if list_eq_dec N.eq_dec a b then true else false.

Definition in_range (lo hi c : char) : bool := ((lo <=? c) && (c <=? hi))%N.

(** First code points of the runs of ten characters whose Unicode
    Numeric_Type is Decimal (general category Nd), as of Unicode 14.0,
    the tables of Python 3.11.  Inside a run the decimal value of a
    character is its offset. *)
Definition decimal_runs : list N :=
  [48; 1632; 1776; 1984; 2406; 2534; 2662; 2790; 2918; 3046; 3174; 3302;
   3430; 3558; 3664; 3792; 3872; 4160; 4240; 6112; 6160; 6470; 6608; 6784;
   6800; 6992; 7088; 7232; 7248; 42528; 43216; 43264; 43472; 43504; 43600;
   44016; 65296; 66720; 68912; 69734; 69872; 69942; 70096; 70384; 70736;
   70864; 71248; 71360; 71472; 71904; 72016; 72784; 73040; 73120; 92768;
   92864; 93008; 120782; 120792; 120802; 120812; 120822; 123200; 123632;
   125264; 130032]%N.

(** Ranges of the characters whose Numeric_Type is Digit but not Decimal
    (superscripts, subscripts, circled digits and the like). *)
Definition digit_only_ranges : list (N * N) :=
  [(178, 179); (185, 185); (4969, 4977); (6618, 6618); (8304, 8304);
   (8308, 8313); (8320, 8329); (9312, 9320); (9332, 9340); (9352, 9360);
   (9450, 9450); (9461, 9469); (9471, 9471); (10102, 10110);
   (10112, 10120); (10122, 10130); (68160, 68163); (69216, 69224);
   (69714, 69722); (127232, 127242)]%N.

(** [Py_UNICODE_TODECIMAL]: the decimal value of a character, if any. *)
Definition decimal_value (c : char) : option Z :=
  match find (fun s => in_range s (s + 9)%N c) decimal_runs with
  | Some s => Some (Z.of_N (c - s)%N)
  | None => None
  end.

(** [Py_UNICODE_ISDECIMAL], which is also the [\d] of [re] on [str]. *)
Definition isdecimal_char (c : char) : bool :=
  match decimal_value c with Some _ => true | None => false end.

(** [Py_UNICODE_ISDIGIT]. *)
Definition isdigit_char (c : char) : bool :=
  isdecimal_char c
  || existsb (fun r => in_range (fst r) (snd r) c) digit_only_ranges.

(** [str.isdigit]: every character is a digit and there is at least one. *)
Definition isdigit (s : str) : bool :=
  match s with
  | [] => false
  | _ => forallb isdigit_char s
  end.

(** The ASCII decimal digits ['0'..'9']. *)
Definition is_ascii_digit (c : char) : bool := in_range 48%N 57%N c.

(** [str(n)] for a non-negative integer below 10: one ASCII digit. *)
Definition digit_char (n : Z) : char := (48 + Z.to_N n)%N.

(** [str(n)] for a natural number, most significant digit first. *)
Fixpoint str_of_nat_aux (fuel : nat) (n : Z) (acc : str) : str :=
  match fuel with
  | O => acc
  | S fuel' =>
      let acc' := digit_char (n mod 10) :: acc in
      if n / 10 =? 0 then acc' else str_of_nat_aux fuel' (n / 10) acc'
  end%Z.

Definition str_of_nat (n : nat) : str :=
  str_of_nat_aux (S n) (Z.of_nat n) [].

(** [int(s)] on the text of a [strptime] group: surrounding blanks are
    stripped (only a leading space can occur in a group) and the rest is
    read as a decimal numeral; [None] stands for the [ValueError]. *)
Fixpoint int_digits (acc : Z) (s : str) : option Z :=
  match s with
  | [] => Some acc
  | c :: s' =>
      match decimal_value c with
      | Some v => int_digits (10 * acc + v)%Z s'
      | None => None
      end
  end.

Definition py_int (s : str) : option Z :=
  match s with
  | [] => None
  | c :: s' =>
      if (c =? 32)%N then
        match s' with [] => None | _ => int_digits 0 s' end
      else int_digits 0 s
  end.

(** ** Exceptions *)

Inductive exn :=
| ValueError (msg : str)
| IndexError (msg : str)
| KeyError (msg : str)
| OverflowError (msg : str).

Inductive result (A : Type) :=
| Ok (a : A)
| Raise (e : exn).
Arguments Ok {A} a.
Arguments Raise {A} e.

Definition bind {A B} (r : result A) (k : A -> result B) : result B :=
  match r with
  | Ok a => k a
  | Raise e => Raise e
  end.

Notation "x <- c ;; k" := (bind c (fun x => k))
  (at level 61, c at next level, right associativity).

(** [repr] of a string that needs no escaping. *)
Definition repr (s : str) : str := u "'" ++ s ++ u "'".

(** [str(e)]: the message the exception was raised with, and for a
    [KeyError] the [repr] of the key. *)
Definition exn_str (e : exn) : str :=
  match e with
  | ValueError m | IndexError m | OverflowError m => m
  | KeyError k => repr k
  end.

(** [str(z)] for an integer. *)
Definition str_of_Z (z : Z) : str :=
  let digits n := str_of_nat_aux (S (Z.to_nat (Z.log2 n))) n [] in
  if (z <? 0)%Z then 45%N :: digits (- z)%Z else digits z.

(** ** Dates: the [date] class of [datetime] *)

Local Open Scope Z_scope.

Record date := mkdate { year : Z; month : Z; day : Z }.

Definition MINYEAR : Z := 1.
Definition MAXYEAR : Z := 9999.
Definition _MAXORDINAL : Z := 3652059.

Definition _DAYS_IN_MONTH : list Z :=
  [-1; 31; 28; 31; 30; 31; 30; 31; 31; 30; 31; 30; 31].

Definition _DAYS_BEFORE_MONTH : list Z :=
  [-1; 0; 31; 59; 90; 120; 151; 181; 212; 243; 273; 304; 334].

Definition _is_leap (y : Z) : bool :=
  (y mod 4 =? 0) && (negb (y mod 100 =? 0) || (y mod 400 =? 0)).

Definition _days_before_year (y : Z) : Z :=
  let y := y - 1 in
  y * 365 + y / 4 - y / 100 + y / 400.

Definition _days_in_month (y m : Z) : Z :=
  if (m =? 2) && _is_leap y then 29
  else nth (Z.to_nat m) _DAYS_IN_MONTH 0.

Definition _days_before_month (y m : Z) : Z :=
  nth (Z.to_nat m) _DAYS_BEFORE_MONTH 0
  + (if (2 <? m) && _is_leap y then 1 else 0).

Definition _ymd2ord (y m d : Z) : Z :=
  _days_before_year y + _days_before_month y m + d.

Definition _DI400Y : Z := 146097.
Definition _DI100Y : Z := 36524.
Definition _DI4Y : Z := 1461.

Definition _ord2ymd (n : Z) : Z * Z * Z :=
  let n := n - 1 in
  let n400 := n / _DI400Y in
  let n := n mod _DI400Y in
  let y := n400 * 400 + 1 in
  let n100 := n / _DI100Y in
  let n := n mod _DI100Y in
  let n4 := n / _DI4Y in
  let n := n mod _DI4Y in
  let n1 := n / 365 in
  let n := n mod 365 in
  let y := y + n100 * 100 + n4 * 4 + n1 in
  if (n1 =? 4) || (n100 =? 4) then (y - 1, 12, 31)
  else
    let leapyear := (n1 =? 3) && (negb (n4 =? 24) || (n100 =? 3)) in
    let m := Z.shiftr (n + 50) 5 in
    let preceding :=
      nth (Z.to_nat m) _DAYS_BEFORE_MONTH 0
      + (if (2 <? m) && leapyear then 1 else 0) in
    let '(m, preceding) :=
      if n <? preceding then
        (m - 1,
         preceding - (nth (Z.to_nat (m - 1)) _DAYS_IN_MONTH 0
                      + (if (m - 1 =? 2) && leapyear then 1 else 0)))
      else (m, preceding) in
    (y, m, n - preceding + 1).

(** The month and the day that [_ord2ymd] finds for the [n]-th day of a
    year, counted from 0: its last lines, taken apart. *)
Definition month_day (n : Z) (leapyear : bool) : Z * Z :=
  let m := Z.shiftr (n + 50) 5 in
  let preceding :=
    nth (Z.to_nat m) _DAYS_BEFORE_MONTH 0
    + (if (2 <? m) && leapyear then 1 else 0) in
  let '(m, preceding) :=
    if n <? preceding then
      (m - 1,
       preceding - (nth (Z.to_nat (m - 1)) _DAYS_IN_MONTH 0
                    + (if (m - 1 =? 2) && leapyear then 1 else 0)))
    else (m, preceding) in
  (m, n - preceding + 1).

(** The dates that exist: what the constructor accepts. *)
Definition valid_dateb (d : date) : bool :=
  (MINYEAR <=? year d) && (year d <=? MAXYEAR)
  && (1 <=? month d) && (month d <=? 12)
  && (1 <=? day d) && (day d <=? _days_in_month (year d) (month d)).

(** [date(year, month, day)], with the checks of the constructor. *)
Definition date_new (y m d : Z) : result date :=
  if negb ((MINYEAR <=? y) && (y <=? MAXYEAR)) then
    Raise (ValueError (u "year " ++ str_of_Z y ++ u " is out of range"))
  else if negb ((1 <=? m) && (m <=? 12)) then
    Raise (ValueError (u "month must be in 1..12"))
  else if negb ((1 <=? d) && (d <=? _days_in_month y m)) then
    Raise (ValueError (u "day is out of range for month"))
  else Ok (mkdate y m d).

(** [d.replace(year=y)]. *)
Definition replace_year (d : date) (y : Z) : result date :=
  date_new y (month d) (day d).

(** [a < b]: dates compare as the tuples (year, month, day). *)
Definition date_ltb (a b : date) : bool :=
  (year a <? year b)
  || ((year a =? year b)
      && ((month a <? month b)
          || ((month a =? month b) && (day a <? day b)))).

Definition toordinal (d : date) : Z := _ymd2ord (year d) (month d) (day d).

Definition fromordinal (n : Z) : date :=
  let '(y, m, d) := _ord2ymd n in mkdate y m d.

(** [d.weekday()]: Monday is 0, Sunday is 6. *)
Definition weekday (d : date) : Z := (toordinal d + 6) mod 7.

(** [(a - b).days]. *)
Definition days_between (a b : date) : Z := toordinal a - toordinal b.

(** [d + timedelta(days=n)]. *)
Definition date_add_days (d : date) (n : Z) : result date :=
  let o := toordinal d + n in
  if (0 <? o) && (o <=? _MAXORDINAL) then Ok (fromordinal o)
  else Raise (OverflowError (u "date value out of range")).

(** Zero-padded decimal rendering on [w] digits. *)
Fixpoint zero_pad (w : nat) (n : Z) : str :=
  match w with
  | O => []
  | S w' => zero_pad w' (n / 10) ++ [digit_char (n mod 10)]
  end.

(** [d.strftime("%d.%m.%Y")], as CPython 3.11 gives it with the C library
    of Linux: [%d] and [%m] are written on two digits, [%Y] is the year in
    decimal without padding, so a year before 1000 has fewer than four
    digits. *)
Definition strftime (d : date) : str :=
  zero_pad 2 (day d) ++ u "." ++ zero_pad 2 (month d) ++ u "."
  ++ str_of_Z (year d).

(** *** [datetime.strptime(s, "%d.%m.%Y").date()]

    [_strptime] compiles the format to the regular expression
    [(?P<d>3[0-1]|[1-2]\d|0[1-9]|[1-9]| [1-9])\.(?P<m>1[0-2]|0[1-9]|[1-9])\.(?P<Y>\d\d\d\d)],
    matches it at the start of the input, demands that the match reaches
    the end of the input, and builds the date from the three groups.  The
    alternatives of a group are tried in order, and a later one is tried
    when the rest of the pattern fails after an earlier one; each function
    below lists the (group text, rest of input) pairs of the alternatives
    that match, in that order.  (The expression is compiled with
    IGNORECASE; no character maps to a digit, a dot or a space by case
    folding, so the flag changes nothing here.) *)

Definition c0 : char := 48%N.
Definition c1 : char := 49%N.
Definition c2 : char := 50%N.
Definition c3 : char := 51%N.
Definition c9 : char := 57%N.
Definition dot : char := 46%N.
Definition space : char := 32%N.

(** A two-character alternative: [p1] on the first, [p2] on the second. *)
Definition alt2 (p1 p2 : char -> bool) (s : str) : list (str * str) :=
  match s with
  | a :: b :: r => if p1 a && p2 b then [([a; b], r)] else []
  | _ => []
  end.

(** A one-character alternative. *)
Definition alt1 (p : char -> bool) (s : str) : list (str * str) :=
  match s with
  | a :: r => if p a then [([a], r)] else []
  | _ => []
  end.

Definition re_d (s : str) : list (str * str) :=
  alt2 (N.eqb c3) (in_range c0 c1) s
  ++ alt2 (in_range c1 c2) isdecimal_char s
  ++ alt2 (N.eqb c0) (in_range c1 c9) s
  ++ alt1 (in_range c1 c9) s
  ++ alt2 (N.eqb space) (in_range c1 c9) s.

Definition re_m (s : str) : list (str * str) :=
  alt2 (N.eqb c1) (in_range c0 c2) s
  ++ alt2 (N.eqb c0) (in_range c1 c9) s
  ++ alt1 (in_range c1 c9) s.

Definition re_Y (s : str) : list (str * str) :=
  match s with
  | a :: b :: c :: d :: r =>
      if isdecimal_char a && isdecimal_char b
         && isdecimal_char c && isdecimal_char d
      then [([a; b; c; d], r)] else []
  | _ => []
  end.

(** The literal [\.]. *)
Definition re_dot (s : str) : option str :=
  match s with
  | a :: r => if (a =? dot)%N then Some r else None
  | [] => None
  end.

(** The first alternative after which the continuation succeeds. *)
Fixpoint first_match {A B} (k : A -> option B) (l : list A) : option B :=
  match l with
  | [] => None
  | a :: l' =>
      match k a with
      | Some b => Some b
      | None => first_match k l'
      end
  end.

(** [format_regex.match(s)]: the groups d, m, Y and the unmatched rest. *)
Definition re_match (s : str) : option (str * str * str * str) :=
  first_match (fun '(d, r) =>
    match re_dot r with
    | None => None
    | Some r =>
        first_match (fun '(m, r) =>
          match re_dot r with
          | None => None
          | Some r =>
              first_match (fun '(y, r) => Some (d, m, y, r)) (re_Y r)
          end) (re_m r)
    end) (re_d s).

Definition strptime (s : str) : result date :=
  match re_match s with
  | None =>
      Raise (ValueError (u "time data " ++ repr s
                         ++ u " does not match format '%d.%m.%Y'"))
  | Some (d, m, y, rest) =>
      match rest with
      | _ :: _ => Raise (ValueError (u "unconverted data remains: " ++ rest))
      | [] =>
          match py_int y, py_int m, py_int d with
          | Some y, Some m, Some d => date_new y m d
          | _, _, _ => Raise (ValueError (u "invalid literal for int()"))
          end
      end
  end.

(** ** The field classes *)

(** A [Field] object: its [value] attribute.  [Name], [Phone] and
    [Birthday] add no attribute; [__str__] is [str(self.value)]. *)
Record Field := mkField { value : str }.

Definition Field_str (f : Field) : str := value f.

Definition Name (v : str) : Field := mkField v.

Definition Phone (v : str) : result Field :=
  if negb (isdigit v) || negb (List.length v =? 10)%nat then
    Raise (ValueError (u "Phone number must be 10 digits."))
  else Ok (mkField v).

Definition Birthday (v : str) : result Field :=
  match strptime v with
  | Ok _ => Ok (mkField v)
  | Raise (ValueError _) =>
      Raise (ValueError (u "Invalid date format. Use DD.MM.YYYY"))
  | Raise e => Raise e
  end.

(** Truth value of a string: non-empty. *)
Definition truthy (s : str) : bool :=
  match s with [] => false | _ => true end.

(** ** [class Record] *)

Module Record_.

Record t := mk {
  name : Field;
  phones : list Field;
  email : str;
  birthday : option Field
}.

Definition set_phones (r : t) (ps : list Field) : t :=
  mk (name r) ps (email r) (birthday r).

Definition set_email (r : t) (e : str) : t :=
  mk (name r) (phones r) e (birthday r).

Definition set_birthday (r : t) (b : option Field) : t :=
  mk (name r) (phones r) (email r) b.

Definition add_phone (phone : str) (r : t) : result t :=
  p <- Phone phone ;;
  Ok (set_phones r (phones r ++ [p])).

(** [__init__(name, phone=None, email="")]. *)
Definition init (nm : str) (phone : option str) (em : str) : result t :=
  let self := mk (Name nm) [] [] None in
  self <- match phone with
          | Some p => if truthy p then add_phone p self else Ok self
          | None => Ok self
          end ;;
  Ok (set_email self em).

Definition remove_phone (phone : str) (r : t) : t :=
  set_phones r
    (filter (fun p => negb (str_eqb (value p) phone)) (phones r)).

(** The loop of [edit_phone]: the first phone whose value is [old] has
    its [value] attribute assigned [new]; [None] when the loop ends with
    [found] still false. *)
Fixpoint edit_loop (ps : list Field) (old new : str)
  : option (list Field) :=
  match ps with
  | [] => None
  | p :: ps' =>
      if str_eqb (value p) old then Some (mkField new :: ps')
      else match edit_loop ps' old new with
           | Some ps'' => Some (p :: ps'')
           | None => None
           end
  end.

Definition edit_phone (old_phone new_phone : str) (r : t) : result t :=
  match edit_loop (phones r) old_phone new_phone with
  | Some ps => Ok (set_phones r ps)
  | None => Raise (ValueError (u "Phone number not found."))
  end.

Definition find_phone (phone : str) (r : t) : option Field :=
  find (fun p => str_eqb (value p) phone) (phones r).

Definition add_birthday (b : str) (r : t) : result t :=
  b <- Birthday b ;;
  Ok (set_birthday r (Some b)).

End Record_.

(** ** Python dictionaries, in insertion order *)

Section Dict.
Variable V : Type.

Definition dict := list (str * V).

(** [d.get(k)]. *)
Fixpoint dict_get (k : str) (d : dict) : option V :=
  match d with
  | [] => None
  | (k', v) :: d' => if str_eqb k' k then Some v else dict_get k d'
  end.

(** [k in d]. *)
Definition dict_contains (k : str) (d : dict) : bool :=
  match dict_get k d with Some _ => true | None => false end.

(** [d[k] = v]: an existing key keeps its place, a new one goes last. *)
Fixpoint dict_set (k : str) (v : V) (d : dict) : dict :=
  match d with
  | [] => [(k, v)]
  | (k', v') :: d' =>
      if str_eqb k' k then (k', v) :: d' else (k', v') :: dict_set k v d'
  end.

(** [del d[k]]: [KeyError] when the key is absent. *)
Definition dict_del (k : str) (d : dict) : result dict :=
  if dict_contains k d then
    Ok (filter (fun kv => negb (str_eqb (fst kv) k)) d)
  else Raise (KeyError k).

(** [d.values()]. *)
Definition dict_values (d : dict) : list V := map snd d.

End Dict.

(** ** [class AddressBook] *)

(** An element of the list [get_upcoming_birthdays] returns. *)
Record entry := mkentry { entry_name : str; entry_birthday : str }.

Module AddressBook.

(** The [data] attribute. *)
Definition t := dict Record_.t.

Definition init : t := [].

Definition add_record (record : Record_.t) (self : t) : t :=
  dict_set (value (Record_.name record)) record self.

Definition find (nm : str) (self : t) : option Record_.t :=
  dict_get nm self.

Definition delete (nm : str) (self : t) : result t :=
  if dict_contains nm self then dict_del nm self else Ok self.

(** The body of the loop of [get_upcoming_birthdays] for one record:
    the entry it appends, if any. *)
Definition upcoming_entry (today : date) (record : Record_.t)
  : result (option entry) :=
  match Record_.birthday record with
  | None => Ok None
  | Some b =>
      birthday_date <- strptime (value b) ;;
      birthday_this_year <- replace_year birthday_date (year today) ;;
      birthday_this_year <-
        (if date_ltb birthday_this_year today
         then replace_year birthday_this_year (year today + 1)
         else Ok birthday_this_year) ;;
      let days_until_birthday := days_between birthday_this_year today in
      if (0 <=? days_until_birthday) && (days_until_birthday <=? 7) then
        birthday_this_year <-
          (if 5 <=? weekday birthday_this_year then
             let days_to_add := 7 - weekday birthday_this_year in
             date_add_days birthday_this_year days_to_add
           else Ok birthday_this_year) ;;
        Ok (Some (mkentry (value (Record_.name record))
                          (strftime birthday_this_year)))
      else Ok None
  end.

Fixpoint upcoming_loop (today : date) (records : list Record_.t)
  (upcoming_birthdays : list entry) : result (list entry) :=
  match records with
  | [] => Ok upcoming_birthdays
  | record :: records' =>
      e <- upcoming_entry today record ;;
      upcoming_loop today records'
        (match e with
         | Some e => upcoming_birthdays ++ [e]
         | None => upcoming_birthdays
         end)
  end.

(** [today] is the value of [datetime.today().date()]. *)
Definition get_upcoming_birthdays (today : date) (self : t)
  : result (list entry) :=
  upcoming_loop today (dict_values self) [].

End AddressBook.

(** ** The command handlers *)

(** A handler body returns a message or raises, and leaves a book. *)
Definition handler := AddressBook.t -> result str * AddressBook.t.

(** The decorator: the clauses of [wrapper], in order. *)
Definition input_error (func : handler) (book : AddressBook.t)
  : str * AddressBook.t :=
  match func book with
  | (Ok msg, book') => (msg, book')
  | (Raise (ValueError ve), book') => (ve, book')
  | (Raise (IndexError _), book') =>
      (u "Please provide all necessary arguments.", book')
  | (Raise (KeyError _), book') => (u "Contact not found.", book')
  | (Raise e, book') =>
      (u "An unexpected error occurred: " ++ exn_str e, book')
  end.

(** The [ValueError] of an unpacking assignment with too few values. *)
Definition not_enough_values (expected : str) (got : nat) : exn :=
  ValueError (u "not enough values to unpack (expected " ++ expected
              ++ u ", got " ++ str_of_nat got ++ u ")").

(** With too many values; later versions of Python add the number got. *)
Definition too_many_values (expected : str) : exn :=
  ValueError (u "too many values to unpack (expected " ++ expected ++ u ")").

(** [record] is the object stored under [nm]: assigning to its attributes
    changes the book's entry in place. *)
Definition store (nm : str) (record : Record_.t) (book : AddressBook.t)
  : AddressBook.t :=
  dict_set nm record book.

Definition add_contact_body (args : list str) : handler := fun book =>
  match args with
  | nm :: phone :: rest =>
      let em := match rest with e :: _ => e | [] => [] end in
      match AddressBook.find nm book with
      | None =>
          match Record_.init nm (Some phone) em with
          | Raise e => (Raise e, book)
          | Ok record =>
              (Ok (u "Contact added."), AddressBook.add_record record book)
          end
      | Some record =>
          match (if truthy phone then Record_.add_phone phone record
                 else Ok record) with
          | Raise e => (Raise e, book)
          | Ok record =>
              let record :=
                if truthy em then Record_.set_email record em else record in
              (Ok (u "Contact updated."), store nm record book)
          end
      end
  | _ => (Raise (not_enough_values (u "at least 2") (List.length args)), book)
  end.

Definition add_contact (args : list str) := input_error (add_contact_body args).

Definition change_contact_body (args : list str) : handler := fun book =>
  match args with
  | [nm; old_phone; new_phone] =>
      match AddressBook.find nm book with
      | Some record =>
          match Record_.edit_phone old_phone new_phone record with
          | Raise e => (Raise e, book)
          | Ok record => (Ok (u "Contact updated."), store nm record book)
          end
      | None =>
          (Raise (ValueError (u "Contact " ++ nm ++ u " not found.")), book)
      end
  | _ :: _ :: _ :: _ :: _ => (Raise (too_many_values (u "3")), book)
  | _ => (Raise (not_enough_values (u "3") (List.length args)), book)
  end.

Definition change_contact (args : list str) :=
  input_error (change_contact_body args).

Definition show_phone_body (args : list str) : handler := fun book =>
  match args with
  | [] => (Raise (IndexError (u "list index out of range")), book)
  | nm :: _ =>
      match AddressBook.find nm book with
      | Some record =>
          match Record_.phones record with
          | [] => (Raise (ValueError (u "No phone found for " ++ nm ++ u ".")),
                   book)
          | p :: ps =>
              (Ok (nm ++ u ": "
                   ++ fold_left (fun acc q => acc ++ u ", " ++ Field_str q)
                        ps (Field_str p)),
               book)
          end
      | None =>
          (Raise (ValueError (u "No phone found for " ++ nm ++ u ".")), book)
      end
  end.

Definition show_phone (args : list str) := input_error (show_phone_body args).

Definition add_birthday_body (args : list str) : handler := fun book =>
  match args with
  | [nm; b] =>
      match AddressBook.find nm book with
      | Some record =>
          match Record_.add_birthday b record with
          | Raise e => (Raise e, book)
          | Ok record =>
              (Ok (u "Birthday added for " ++ nm ++ u "."),
               store nm record book)
          end
      | None =>
          (Raise (ValueError (u "Contact " ++ nm ++ u " not found.")), book)
      end
  | _ :: _ :: _ :: _ => (Raise (too_many_values (u "2")), book)
  | _ => (Raise (not_enough_values (u "2") (List.length args)), book)
  end.

Definition add_birthday (args : list str) :=
  input_error (add_birthday_body args).

(** [birthdays]: the query under the decorator. *)
Definition birthdays_body (today : date) : handler := fun book =>
  match AddressBook.get_upcoming_birthdays today book with
  | Raise e => (Raise e, book)
  | Ok [] => (Ok (u "No upcoming birthdays in the next week."), book)
  | Ok (e :: es) =>
      let line e := entry_name e ++ u ": " ++ entry_birthday e in
      (Ok (fold_left (fun acc e => acc ++ [10%N] ++ line e) es (line e)), book)
  end.

Definition birthdays (today : date) := input_error (birthdays_body today).

(** The messages of the handlers. *)
Definition msg_missing_args : str := u "Please provide all necessary arguments.".
Definition msg_phone_invalid : str := u "Phone number must be 10 digits.".
Definition msg_date_invalid : str := u "Invalid date format. Use DD.MM.YYYY".
Definition msg_added : str := u "Contact added.".
Definition msg_updated : str := u "Contact updated.".

(** ** Notions the properties are stated with *)

(** The name a record bears. *)
Definition record_name (r : Record_.t) : str := value (Record_.name r).

(** The candidate date of a birthday: its (day, month) with today's year,
    and with the year after when that date is before today. *)
Definition candidate_date (today bd : date) : date :=
  let c := mkdate (year today) (month bd) (day bd) in
  if date_ltb c today then mkdate (year today + 1) (month bd) (day bd)
  else c.

(** Both dates that building the candidate goes through exist. *)
Definition candidate_exists (today bd : date) : bool :=
  valid_dateb (mkdate (year today) (month bd) (day bd))
  && valid_dateb (candidate_date today bd).

(** The birthday of the record, when set, is a date with a candidate. *)
Definition has_candidate (today : date) (r : Record_.t) : bool :=
  match Record_.birthday r with
  | None => true
  | Some b =>
      match strptime (value b) with
      | Ok bd => candidate_exists today bd
      | Raise _ => false
      end
  end.

(** The date the query reports for a candidate. *)
Definition effective_date (c : date) : date :=
  if 5 <=? weekday c then fromordinal (toordinal c + (7 - weekday c))
  else c.

Fixpoint nodupb (l : list str) : bool :=
  match l with
  | [] => true
  | a :: l' => negb (existsb (str_eqb a) l') && nodupb l'
  end.

(** The invariant of the book: keys are pairwise different and every
    record is stored under its own name. *)
Definition book_wfb (book : AddressBook.t) : bool :=
  nodupb (map fst book)
  && forallb (fun kv => str_eqb (fst kv) (record_name (snd kv))) book.

(** What the loop of the query appends for a record whose birthday has a
    candidate date. *)
Definition entry_of (today : date) (r : Record_.t) : option entry :=
  match Record_.birthday r with
  | None => None
  | Some b =>
      match strptime (value b) with
      | Raise _ => None
      | Ok bd =>
          let c := candidate_date today bd in
          if (0 <=? days_between c today) && (days_between c today <=? 7)
          then Some (mkentry (record_name r) (strftime (effective_date c)))
          else None
      end
  end.

Definition entries_of (today : date) (r : Record_.t) : list entry :=
  match entry_of today r with Some e => [e] | None => [] end.

(** The texts of a day: one of the digits 1 to 9, alone or after a zero
    or a blank; 1 or 2 and then a decimal digit, of any script; 30 or 31. *)
Definition day_group (ds : str) : bool :=
  match ds with
  | [a] => in_range c1 c9 a
  | [a; b] =>
      ((a =? c0) || (a =? space))%N && in_range c1 c9 b
      || in_range c1 c2 a && isdecimal_char b
      || (a =? c3)%N && in_range c0 c1 b
  | _ => false
  end.

(** The texts of a month: one of the digits 1 to 9, alone or after a
    zero; 10, 11 or 12. *)
Definition month_group (ms : str) : bool :=
  match ms with
  | [a] => in_range c1 c9 a
  | [a; b] =>
      (a =? c0)%N && in_range c1 c9 b || (a =? c1)%N && in_range c0 c2 b
  | _ => false
  end.

(** The texts of a year: four decimal digits, of any script. *)
Definition year_group (ys : str) : bool :=
  (List.length ys =? 4)%nat && forallb isdecimal_char ys.

(** The text [s] is a day, a dot, a month, a dot and a year, and nothing
    else, and the numbers written are the day, the month and the year of
    [d]. *)
Definition date_text (s : str) (d : date) : Prop :=
  exists ds ms ys,
    s = ds ++ [dot] ++ ms ++ [dot] ++ ys
    /\ day_group ds = true
    /\ month_group ms = true
    /\ year_group ys = true
    /\ py_int ds = Some (day d)
    /\ py_int ms = Some (month d)
    /\ py_int ys = Some (year d).

(** The text of a date as DD.MM.YYYY: two digits, two digits and four
    digits, with leading zeros. *)
Definition ddmmyyyy (d : date) : str :=
  zero_pad 2 (day d) ++ [dot] ++ zero_pad 2 (month d) ++ [dot]
  ++ zero_pad 4 (year d).

(** ** The rest of the handlers *)

(** [sep.join(l)]. *)
Fixpoint join (sep : str) (l : list str) : str :=
  match l with
  | [] => []
  | [x] => x
  | x :: l' => x ++ sep ++ join sep l'
  end.

(** [Record.__str__]. *)
Definition Record_str (r : Record_.t) : str :=
  let phones := join (u "; ") (map Field_str (Record_.phones r)) in
  let email_info :=
    if truthy (Record_.email r) then u ", email: " ++ Record_.email r
    else [] in
  let birthday :=
    match Record_.birthday r with
    | Some b => u ", birthday: " ++ Field_str b
    | None => []
    end in
  Field_str (Record_.name r) ++ u ": " ++ phones ++ email_info ++ birthday.

Definition show_all_contacts_body : handler := fun book =>
  match book with
  | [] => (Ok (u "No contacts found."), book)
  | _ => (Ok (join [10%N] (map Record_str (dict_values book))), book)
  end.

Definition show_all_contacts := input_error show_all_contacts_body.

Definition show_birthday_body (args : list str) : handler := fun book =>
  match args with
  | [] => (Raise (IndexError (u "list index out of range")), book)
  | nm :: _ =>
      match AddressBook.find nm book with
      | Some record =>
          match Record_.birthday record with
          | Some b => (Ok (nm ++ u "'s birthday is " ++ value b), book)
          | None =>
              (Raise (ValueError (u "No birthday found for " ++ nm ++ u ".")),
               book)
          end
      | None =>
          (Raise (ValueError (u "No birthday found for " ++ nm ++ u ".")),
           book)
      end
  end.

Definition show_birthday (args : list str) :=
  input_error (show_birthday_body args).

(** *** [parse_input] *)

(** The characters of [str.isspace], which [strip] and [split] without
    arguments take as blanks (Unicode 14.0). *)
Definition whitespace : list N :=
  [9; 10; 11; 12; 13; 28; 29; 30; 31; 32; 133; 160; 5760; 8192; 8193; 8194;
   8195; 8196; 8197; 8198; 8199; 8200; 8201; 8202; 8232; 8233; 8239; 8287;
   12288]%N.

Definition isspace_char (c : char) : bool := existsb (N.eqb c) whitespace.

Fixpoint lstrip (s : str) : str :=
  match s with
  | [] => []
  | c :: s' => if isspace_char c then lstrip s' else s
  end.

(** [s.strip()]. *)
Definition strip (s : str) : str := rev (lstrip (rev (lstrip s))).

(** The scan of [s.split()]: [word] holds, last character first, the
    characters of the word being read. *)
Fixpoint split_scan (word : str) (s : str) : list str :=
  match s with
  | [] => match word with [] => [] | _ => [rev word] end
  | c :: s' =>
      if isspace_char c then
        match word with
        | [] => split_scan [] s'
        | _ => rev word :: split_scan [] s'
        end
      else split_scan (c :: word) s'
  end.

(** [s.split()]. *)
Definition split (s : str) : list str := split_scan [] s.

Section ParseInput.

(** [str.lower], the case mapping of Unicode, is not modelled: what is
    proved of [parse_input] holds whatever it does. *)
Variable lower : str -> str.

Definition parse_input (user_input : str) : result (str * list str) :=
  if negb (truthy (strip user_input)) then Ok ([], [])
  else
    match split user_input with
    | [] => Raise (IndexError (u "list index out of range"))
    | p :: ps => Ok (lower p, ps)
    end.

End ParseInput.

(** A word: not empty and without blank. *)
Definition word (w : str) : Prop :=
  w <> [] /\ forallb (fun c => negb (isspace_char c)) w = true.

(** The candidate of the record's birthday is 0 to 7 days after today. *)
Definition in_windowb (today : date) (r : Record_.t) : bool :=
  match Record_.birthday r with
  | None => false
  | Some b =>
      match strptime (value b) with
      | Raise _ => false
      | Ok bd =>
          (0 <=? days_between (candidate_date today bd) today)
          && (days_between (candidate_date today bd) today <=? 7)
      end
  end.

(** The birthday of the record, when set, is read by [strptime] and is
    not a 29 February. *)
Definition no_leap_day (r : Record_.t) : bool :=
  match Record_.birthday r with
  | None => true
  | Some b =>
      match strptime (value b) with
      | Ok bd => negb ((month bd =? 2) && (day bd =? 29))
      | Raise _ => false
      end
  end.

(** ** Sample data *)

(** A record with one phone and a birthday, stored under its name. *)
Definition contact (nm phone bday : string) : str * Record_.t :=
  (u nm, Record_.mk (Name (u nm)) [mkField (u phone)] []
           (Some (mkField (u bday)))).

Definition book_new_year : AddressBook.t :=
  [contact "Ann" "1111111111" "02.01.2000"].

Definition book_june : AddressBook.t :=
  [contact "Ann" "1111111111" "12.06.2024";
   contact "Bob" "2222222222" "15.06.2024";
   contact "Eve" "3333333333" "16.06.1990";
   contact "Dan" "4444444444" "20.06.1990"].

Definition book_leap_day : AddressBook.t :=
  [contact "Ann" "1111111111" "12.06.2000";
   contact "Bob" "2222222222" "29.02.2000"].

Definition book_bob : AddressBook.t :=
  [contact "Bob" "2222222222" "29.02.2000"].

(** The ten Arabic-Indic digits U+0660 .. U+0669. *)
Definition arabic_indic_digits : str :=
  [1632; 1633; 1634; 1635; 1636; 1637; 1638; 1639; 1640; 1641]%N.

Definition ann_one_phone : Record_.t :=
  Record_.mk (Name (u "Ann")) [mkField (u "1111111111")] [] None.

Definition ann_two_phones : Record_.t :=
  Record_.mk (Name (u "Ann"))
    [mkField (u "5555555555"); mkField (u "6666666666")]
    (u "ann@example.org") (Some (mkField (u "01.02.1990"))).

Definition book_with_ann : AddressBook.t :=
  [(u "Ann", ann_one_phone)].

(** * Properties *)

Unset Implicit Arguments.

(** ** Strings and dictionaries *)

Lemma str_eqb_eq (a b : str) : str_eqb a b = true <-> a = b.
Proof.
  unfold str_eqb. destruct (list_eq_dec N.eq_dec a b); split; congruence.
Qed.

Lemma str_eqb_refl (a : str) : str_eqb a a = true.
Proof. now apply str_eqb_eq. Qed.

Lemma str_eqb_neq (a b : str) : str_eqb a b = false <-> a <> b.
Proof.
  unfold str_eqb. destruct (list_eq_dec N.eq_dec a b); split; congruence.
Qed.

Lemma str_eqb_sym (a b : str) : str_eqb a b = str_eqb b a.
Proof.
  destruct (str_eqb b a) eqn:E.
  - apply str_eqb_eq in E. subst. apply str_eqb_refl.
  - apply str_eqb_neq in E. apply str_eqb_neq. congruence.
Qed.

Section DictFacts.
Context {V : Type}.
Implicit Types (d : dict V) (k : str) (v : V).

Lemma dict_get_set_same k v d : dict_get k (dict_set k v d) = Some v.
Proof.
  induction d as [|[k' v'] d IH]; simpl.
  - now rewrite str_eqb_refl.
  - destruct (str_eqb k' k) eqn:E; simpl; rewrite E; auto.
Qed.

Lemma dict_get_set_other k k' v d :
  k' <> k -> dict_get k' (dict_set k v d) = dict_get k' d.
Proof.
  intros Hne. induction d as [|[k0 v0] d IH]; simpl.
  - apply str_eqb_neq in Hne. rewrite str_eqb_sym in Hne. now rewrite Hne.
  - destruct (str_eqb k0 k) eqn:E; simpl.
    + apply str_eqb_eq in E. subst k0.
      apply str_eqb_neq in Hne. rewrite str_eqb_sym in Hne.
      now rewrite Hne.
    + now rewrite IH.
Qed.

Lemma dict_set_set k v1 v2 d :
  dict_set k v2 (dict_set k v1 d) = dict_set k v2 d.
Proof.
  induction d as [|[k' v'] d IH]; simpl.
  - now rewrite str_eqb_refl.
  - destruct (str_eqb k' k) eqn:E; simpl; rewrite E; congruence.
Qed.

Lemma dict_get_removed k d :
  dict_get k (filter (fun kv => negb (str_eqb (fst kv) k)) d) = None.
Proof.
  induction d as [|[k' v'] d IH]; simpl; auto.
  destruct (str_eqb k' k) eqn:E; simpl; auto. now rewrite E.
Qed.

Lemma dict_get_In k v d : dict_get k d = Some v -> In (k, v) d.
Proof.
  induction d as [|[k' v'] d IH]; simpl; [discriminate|].
  destruct (str_eqb k' k) eqn:E.
  - apply str_eqb_eq in E. intros [= ->]. subst. now left.
  - auto.
Qed.

Lemma dict_set_keys k v d :
  dict_contains k d = true -> map fst (dict_set k v d) = map fst d.
Proof.
  unfold dict_contains.
  induction d as [|[k' v'] d IH]; simpl; [discriminate|].
  destruct (str_eqb k' k) eqn:E; simpl; [reflexivity|].
  intros H. now rewrite IH.
Qed.

Lemma dict_set_keys_new k v d :
  dict_contains k d = false -> map fst (dict_set k v d) = map fst d ++ [k].
Proof.
  unfold dict_contains.
  induction d as [|[k' v'] d IH]; simpl; [reflexivity|].
  destruct (str_eqb k' k) eqn:E; simpl; [discriminate|].
  intros H. now rewrite IH.
Qed.
End DictFacts.

(** ** The book: [add_record] and [delete] *)

(** C7: adding [r1] and then [r2] under the same name leaves [r2] under
    that name, and the book is the one that adding [r2] alone gives:
    nothing of [r1] survives. *)
Theorem add_record_twice_replaces
  (book : AddressBook.t) (r1 r2 : Record_.t) :
  record_name r1 = record_name r2 ->
  AddressBook.find (record_name r2)
    (AddressBook.add_record r2 (AddressBook.add_record r1 book)) = Some r2
  /\ AddressBook.add_record r2 (AddressBook.add_record r1 book)
     = AddressBook.add_record r2 book
  /\ forall r, AddressBook.find (record_name r2)
                 (AddressBook.add_record r2 (AddressBook.add_record r1 book))
               = Some r ->
       Record_.phones r = Record_.phones r2
       /\ Record_.email r = Record_.email r2
       /\ Record_.birthday r = Record_.birthday r2.
Proof.
  unfold record_name, AddressBook.add_record, AddressBook.find.
  intros Hn. rewrite Hn, dict_set_set, dict_get_set_same.
  split; [reflexivity|]. split; [reflexivity|].
  intros r [= <-]. auto.
Qed.

Lemma add_record_twice_replaces_witness :
  AddressBook.find (record_name ann_two_phones)
    (AddressBook.add_record ann_two_phones
       (AddressBook.add_record ann_one_phone book_june)) = Some ann_two_phones
  /\ AddressBook.add_record ann_two_phones
       (AddressBook.add_record ann_one_phone book_june)
     = AddressBook.add_record ann_two_phones book_june
  /\ forall r, AddressBook.find (record_name ann_two_phones)
                 (AddressBook.add_record ann_two_phones
                    (AddressBook.add_record ann_one_phone book_june))
               = Some r ->
       Record_.phones r = Record_.phones ann_two_phones
       /\ Record_.email r = Record_.email ann_two_phones
       /\ Record_.birthday r = Record_.birthday ann_two_phones.
Proof.
  apply (add_record_twice_replaces book_june ann_one_phone ann_two_phones).
  reflexivity.
Defined.

(** C8: [delete] never raises; after it [find] gives nothing, and a second
    [delete] returns the book unchanged. *)
Theorem delete_idempotent (book : AddressBook.t) (nm : str) :
  exists book1,
    AddressBook.delete nm book = Ok book1
    /\ AddressBook.find nm book1 = None
    /\ exists book2,
         AddressBook.delete nm book1 = Ok book2
         /\ book2 = book1
         /\ AddressBook.find nm book2 = None.
Proof.
  unfold AddressBook.delete, AddressBook.find, dict_del.
  destruct (dict_contains nm book) eqn:E.
  - eexists; split; [reflexivity|].
    assert (H := dict_get_removed nm book).
    unfold dict_contains. rewrite H. split; [reflexivity|].
    eexists. split; [reflexivity|]. auto.
  - exists book. rewrite E. unfold dict_contains in E.
    destruct (dict_get nm book) eqn:G; [discriminate|].
    do 2 (split; [reflexivity|]). exists book. auto.
Qed.

(** ** The invariant of the book *)

Lemma nodupb_NoDup (l : list str) : nodupb l = true -> NoDup l.
Proof.
  induction l as [|a l IH]; simpl; [constructor|].
  rewrite andb_true_iff, negb_true_iff. intros [Ha Hl].
  constructor; auto. intros Hin.
  assert (existsb (str_eqb a) l = true); [|congruence].
  apply existsb_exists. exists a. split; [assumption|apply str_eqb_refl].
Qed.

Lemma NoDup_nodupb (l : list str) : NoDup l -> nodupb l = true.
Proof.
  induction 1 as [|a l Ha Hl IH]; simpl; [reflexivity|].
  rewrite IH, andb_true_r. apply negb_true_iff.
  destruct (existsb (str_eqb a) l) eqn:E; [|reflexivity].
  apply existsb_exists in E. destruct E as (x & Hx & Hax).
  apply str_eqb_eq in Hax. subst x. contradiction.
Qed.

Lemma book_wfb_spec (book : AddressBook.t) :
  book_wfb book = true <->
  NoDup (map fst book)
  /\ Forall (fun kv => fst kv = record_name (snd kv)) book.
Proof.
  unfold book_wfb. rewrite andb_true_iff, forallb_forall, Forall_forall.
  split; intros [Hk Hn].
  - split; [now apply nodupb_NoDup|].
    intros kv Hkv. now apply str_eqb_eq, Hn.
  - split; [now apply NoDup_nodupb|].
    intros kv Hkv. now apply str_eqb_eq, Hn.
Qed.

Lemma dict_contains_keys {V} k (d : dict V) :
  dict_contains k d = true <-> In k (map fst d).
Proof.
  unfold dict_contains. induction d as [|[k' v] d IH]; simpl.
  - split; [discriminate|intros []].
  - destruct (str_eqb k' k) eqn:E.
    + apply str_eqb_eq in E. split; auto.
    + apply str_eqb_neq in E. rewrite IH. split; [auto|]. intros [?|?]; [contradiction|auto].
Qed.

Lemma dict_set_In {V} k (v : V) d kv :
  In kv (dict_set k v d) -> In kv d \/ kv = (k, v).
Proof.
  induction d as [|[k' v'] d IH]; simpl.
  - intros [<-|[]]. auto.
  - destruct (str_eqb k' k) eqn:E; simpl.
    + apply str_eqb_eq in E. subst k'. intros [<-|H]; auto.
    + intros [<-|H]; auto. destruct (IH H); auto.
Qed.

(** Storing a record under its own name keeps the invariant: this covers
    [add_record] and the attribute assignments of the handlers. *)
Lemma book_wfb_dict_set (book : AddressBook.t) nm r :
  record_name r = nm -> book_wfb book = true ->
  book_wfb (dict_set nm r book) = true.
Proof.
  rewrite !book_wfb_spec. intros Hn [Hk Hf]. split.
  - destruct (dict_contains nm book) eqn:E.
    + now rewrite dict_set_keys.
    + rewrite dict_set_keys_new by assumption.
      apply NoDup_app; [assumption|repeat constructor; intros []|].
      intros x Hx [<-|[]].
      apply dict_contains_keys in Hx. congruence.
  - apply Forall_forall. intros kv Hkv.
    apply dict_set_In in Hkv. destruct Hkv as [Hkv| ->].
    + now apply (proj1 (Forall_forall _ _) Hf).
    + simpl. congruence.
Qed.

Lemma book_wfb_add_record (book : AddressBook.t) r :
  book_wfb book = true -> book_wfb (AddressBook.add_record r book) = true.
Proof. now apply book_wfb_dict_set. Qed.

Lemma book_wfb_delete (book book' : AddressBook.t) nm :
  book_wfb book = true -> AddressBook.delete nm book = Ok book' ->
  book_wfb book' = true.
Proof.
  unfold AddressBook.delete, dict_del. intros Hwf.
  destruct (dict_contains nm book); intros [= <-]; [|assumption].
  apply book_wfb_spec in Hwf. destruct Hwf as [Hk Hf].
  apply book_wfb_spec. split.
  - clear Hf. induction book as [|[k v] book IH]; simpl; [constructor|].
    inversion Hk as [|? ? Hx Hl]; subst.
    destruct (str_eqb k nm); simpl; [now apply IH|].
    constructor; [|now apply IH].
    intros Hin. apply Hx. apply in_map_iff in Hin.
    destruct Hin as (kv & <- & Hkv). apply filter_In in Hkv.
    apply in_map. tauto.
  - apply Forall_forall. intros kv Hkv. apply filter_In in Hkv.
    apply (proj1 (Forall_forall _ _) Hf). tauto.
Qed.

Lemma book_wfb_names (book : AddressBook.t) :
  book_wfb book = true -> NoDup (map record_name (dict_values book)).
Proof.
  unfold book_wfb, dict_values. rewrite andb_true_iff. intros [Hk Hn].
  apply nodupb_NoDup in Hk. rewrite map_map.
  replace (map (fun kv => record_name (snd kv)) book) with (map fst book);
    [assumption|].
  apply map_ext_in. intros kv Hkv.
  apply (proj1 (forallb_forall _ _) Hn) in Hkv. now apply str_eqb_eq in Hkv.
Qed.

Lemma NoDup_map_inj {A B} (f : A -> B) (l : list A) (a b : A) :
  NoDup (map f l) -> In a l -> In b l -> f a = f b -> a = b.
Proof.
  induction l as [|x l IH]; simpl; [intros _ []|].
  intros Hnd Ha Hb Hf. inversion Hnd as [|? ? Hx Hl]; subst.
  destruct Ha as [->|Ha], Hb as [->|Hb]; auto.
  - exfalso. apply Hx. rewrite Hf. now apply in_map.
  - exfalso. apply Hx. rewrite <- Hf. now apply in_map.
Qed.

Lemma find_name (book : AddressBook.t) nm r :
  book_wfb book = true -> AddressBook.find nm book = Some r ->
  record_name r = nm.
Proof.
  intros Hwf Hf. apply dict_get_In in Hf.
  apply book_wfb_spec in Hwf. destruct Hwf as [_ Hn].
  now apply (proj1 (Forall_forall _ _) Hn) in Hf.
Qed.

(** The three handlers that change the book keep the invariant. *)
Lemma book_wfb_handlers (book : AddressBook.t) (args : list str) :
  book_wfb book = true ->
  book_wfb (snd (add_contact args book)) = true
  /\ book_wfb (snd (change_contact args book)) = true
  /\ book_wfb (snd (add_birthday args book)) = true.
Proof.
  intros Hwf. repeat split.
  - unfold add_contact, input_error, add_contact_body.
    destruct args as [|nm [|phone rest]]; try assumption.
    destruct (AddressBook.find nm book) as [r|] eqn:F.
    + assert (Hn := find_name _ _ _ Hwf F).
      destruct (truthy phone).
      * unfold Record_.add_phone. destruct (Phone phone) as [p|[]]; simpl; try assumption.
        apply book_wfb_dict_set; [|assumption].
        destruct (truthy _); exact Hn.
      * simpl. apply book_wfb_dict_set; [|assumption].
        destruct (truthy _); exact Hn.
    + unfold Record_.init. destruct (truthy phone).
      * unfold Record_.add_phone. destruct (Phone phone) as [p|[]]; simpl; try assumption.
        now apply book_wfb_add_record.
      * simpl. now apply book_wfb_add_record.
  - unfold change_contact, input_error, change_contact_body.
    destruct args as [|nm [|o [|n [|x rest]]]]; try assumption.
    destruct (AddressBook.find nm book) as [r|] eqn:F; [|assumption].
    assert (Hn := find_name _ _ _ Hwf F).
    unfold Record_.edit_phone.
    destruct (Record_.edit_loop _ _ _); simpl; [|assumption].
    now apply book_wfb_dict_set.
  - unfold add_birthday, input_error, add_birthday_body.
    destruct args as [|nm [|b [|x rest]]]; try assumption.
    destruct (AddressBook.find nm book) as [r|] eqn:F; [|assumption].
    assert (Hn := find_name _ _ _ Hwf F).
    unfold Record_.add_birthday.
    destruct (Birthday b) as [f|[]]; simpl; try assumption.
    now apply book_wfb_dict_set.
Qed.

(** ** Phone numbers *)

Lemma ascii_digit_isdigit (c : char) :
  is_ascii_digit c = true -> isdigit_char c = true.
Proof.
  unfold is_ascii_digit, isdigit_char, isdecimal_char, decimal_value.
  intros H. simpl. change (48 + 9)%N with 57%N. now rewrite H.
Qed.

Lemma ascii_digits_isdigit (s : str) :
  s <> [] -> forallb is_ascii_digit s = true -> isdigit s = true.
Proof.
  intros Hne H. unfold isdigit. destruct s as [|c s]; [congruence|].
  apply forallb_forall. intros x Hx.
  apply ascii_digit_isdigit. now apply (proj1 (forallb_forall _ _) H).
Qed.

Lemma Phone_ok (s : str) :
  isdigit s = true -> List.length s = 10%nat -> Phone s = Ok (mkField s).
Proof.
  intros Hd Hl. unfold Phone. rewrite Hd, Hl. reflexivity.
Qed.

Lemma Phone_raises (s : str) :
  ~ (isdigit s = true /\ List.length s = 10%nat) ->
  Phone s = Raise (ValueError msg_phone_invalid).
Proof.
  intros H. unfold Phone.
  destruct (isdigit s); simpl; [|reflexivity].
  destruct (Nat.eqb_spec (List.length s) 10); simpl; [|reflexivity].
  exfalso. auto.
Qed.

(** C4, as the code has it: [Phone] raises unless [str.isdigit] holds of
    the string, which asks for Unicode digits and not only for ASCII
    ones, and its length is 10; a string of 10 ASCII digits is accepted
    and reads back unchanged. *)
Theorem Phone_accepts_iff_isdigit_and_length (s : str) :
  (~ (isdigit s = true /\ List.length s = 10%nat) ->
   Phone s = Raise (ValueError msg_phone_invalid))
  /\ (isdigit s = true /\ List.length s = 10%nat ->
      Phone s = Ok (mkField s) /\ Field_str (mkField s) = s)
  /\ (forallb is_ascii_digit s = true /\ List.length s = 10%nat ->
      Phone s = Ok (mkField s) /\ Field_str (mkField s) = s)
  /\ ((exists c, In c s /\ isdigit_char c = false) ->
      Phone s = Raise (ValueError msg_phone_invalid)).
Proof.
  split; [apply Phone_raises|].
  split; [intros [Hd Hl]; split; [now apply Phone_ok|reflexivity]|].
  split.
  - intros [Ha Hl]. split; [|reflexivity]. apply Phone_ok; auto.
    apply ascii_digits_isdigit; auto.
    intros ->. discriminate.
  - intros (c & Hin & Hc). apply Phone_raises. intros [Hd _].
    unfold isdigit in Hd. destruct s as [|a s]; [discriminate|].
    rewrite (proj1 (forallb_forall _ _) Hd c Hin) in Hc. discriminate.
Qed.

Lemma Phone_accepts_iff_isdigit_and_length_witness :
  Phone (u "0123456789") = Ok (mkField (u "0123456789"))
  /\ Field_str (mkField (u "0123456789")) = u "0123456789".
Proof.
  apply (proj1 (proj2 (proj2
           (Phone_accepts_iff_isdigit_and_length (u "0123456789"))))).
  split; reflexivity.
Defined.

(** C4 as stated fails: a string of ten digits that are not ASCII digits
    is accepted. *)
Lemma Phone_accepts_non_ascii_digits :
  Phone arabic_indic_digits = Ok (mkField arabic_indic_digits)
  /\ List.length arabic_indic_digits = 10%nat
  /\ forallb is_ascii_digit arabic_indic_digits = false.
Proof. repeat split. Qed.

(** ** [edit_phone] *)

Lemma edit_loop_none (ps : list Field) (old new : str) :
  Record_.edit_loop ps old new = None <->
  (forall p, In p ps -> value p <> old).
Proof.
  induction ps as [|p ps IH]; simpl.
  - split; [intros _ p []|reflexivity].
  - destruct (str_eqb (value p) old) eqn:E.
    + apply str_eqb_eq in E. split; [discriminate|].
      intros H. exfalso. apply (H p); auto.
    + apply str_eqb_neq in E.
      destruct (Record_.edit_loop ps old new) eqn:L.
      * split; [discriminate|]. intros H.
        destruct IH as [_ IH]. discriminate IH. intros q Hq. apply H. auto.
      * split; [|reflexivity]. intros _ q [<-|Hq]; [assumption|].
        now apply IH.
Qed.

Lemma edit_loop_some (ps : list Field) (old new : str) (ps' : list Field) :
  Record_.edit_loop ps old new = Some ps' ->
  exists before p after,
    ps = before ++ p :: after
    /\ value p = old
    /\ (forall q, In q before -> value q <> old)
    /\ ps' = before ++ mkField new :: after.
Proof.
  revert ps'. induction ps as [|p ps IH]; simpl; [discriminate|].
  intros ps'. destruct (str_eqb (value p) old) eqn:E.
  - apply str_eqb_eq in E. intros [= <-].
    exists [], p, ps. simpl. repeat split; auto.
  - apply str_eqb_neq in E.
    destruct (Record_.edit_loop ps old new) as [ps''|]; [|discriminate].
    intros [= <-]. destruct (IH _ eq_refl) as (b & q & a & -> & Hq & Hb & ->).
    exists (p :: b), q, a. simpl. repeat split; auto.
    intros x [<-|Hx]; auto.
Qed.

(** What [edit_phone] does: it raises when no phone equals [old], and
    otherwise stores [new] as it is, valid or not, in the first such
    phone. *)
Lemma edit_phone_spec (old new : str) (r : Record_.t) :
  ((forall p, In p (Record_.phones r) -> value p <> old) ->
   Record_.edit_phone old new r
   = Raise (ValueError (u "Phone number not found.")))
  /\ (forall before p after,
        Record_.phones r = before ++ p :: after ->
        value p = old ->
        (forall q, In q before -> value q <> old) ->
        Record_.edit_phone old new r
        = Ok (Record_.set_phones r (before ++ mkField new :: after))).
Proof.
  unfold Record_.edit_phone. split.
  - intros H. apply edit_loop_none with (new := new) in H. now rewrite H.
  - intros b p a Hps Hp Hb.
    destruct (Record_.edit_loop (Record_.phones r) old new) as [ps'|] eqn:L.
    + apply edit_loop_some in L.
      destruct L as (b' & p' & a' & Hps' & Hp' & Hb' & ->).
      rewrite Hps in Hps'.
      assert (b = b' /\ a = a') as [-> ->]; [|reflexivity].
      clear - Hps' Hp Hb Hp' Hb'. revert b' Hps' Hb'.
      induction b as [|x b IH]; intros [|y b'] Heq Hb'; simpl in *.
      * injection Heq as _ ->. auto.
      * injection Heq as -> _. exfalso. apply (Hb' y); auto.
      * injection Heq as -> _. exfalso. apply (Hb p'); auto.
      * injection Heq as -> Heq.
        destruct (IH (fun q Hq => Hb q (or_intror Hq)) b' Heq
                    (fun q Hq => Hb' q (or_intror Hq))) as [-> ->]. auto.
    + exfalso. apply (proj1 (edit_loop_none _ _ _)) with (p := p) in L; auto.
      rewrite Hps. apply in_or_app. right. now left.
Qed.

(** C3 at the failing input: editing the phone 1111111111 of a record to
    the text abc succeeds and stores abc, which [Phone] rejects; editing
    to a valid number and editing an absent number behave as claimed. *)
Theorem edit_phone_stores_unvalidated :
  Record_.edit_phone (u "1111111111") (u "abc") ann_one_phone
  = Ok (Record_.set_phones ann_one_phone [mkField (u "abc")])
  /\ Phone (u "abc") = Raise (ValueError msg_phone_invalid)
  /\ Record_.add_phone (u "abc") ann_one_phone
     = Raise (ValueError msg_phone_invalid)
  /\ Record_.edit_phone (u "1111111111") (u "2222222222") ann_one_phone
     = Ok (Record_.set_phones ann_one_phone [mkField (u "2222222222")])
  /\ Record_.find_phone (u "2222222222")
       (Record_.set_phones ann_one_phone [mkField (u "2222222222")])
     = Some (mkField (u "2222222222"))
  /\ Record_.edit_phone (u "3333333333") (u "2222222222") ann_one_phone
     = Raise (ValueError (u "Phone number not found.")).
Proof. repeat split. Qed.

(** ** Commands with too few arguments *)

Lemma not_enough_values_not_generic (expected : str) (got : nat) :
  exn_str (not_enough_values expected got) <> msg_missing_args.
Proof. discriminate. Qed.

(** With too few arguments the unpacking assignment of [add_contact],
    [change_contact] and [add_birthday] raises [ValueError], which the
    first clause of the decorator turns into its own text. *)
Lemma short_args_message (args : list str) (book : AddressBook.t) :
  ((List.length args < 2)%nat ->
   add_contact args book
   = (exn_str (not_enough_values (u "at least 2") (List.length args)), book))
  /\ ((List.length args < 3)%nat ->
      change_contact args book
      = (exn_str (not_enough_values (u "3") (List.length args)), book))
  /\ ((List.length args < 2)%nat ->
      add_birthday args book
      = (exn_str (not_enough_values (u "2") (List.length args)), book)).
Proof.
  repeat split; intros H;
    destruct args as [|a [|b [|c args]]]; simpl in H; try lia; reflexivity.
Qed.

(** C6 at the failing inputs: [add], [change] and [add-birthday] with an
    argument missing answer with the text of the unpacking error and not
    with the message for missing arguments, which [phone] without
    arguments does give. *)
Theorem missing_arguments_message (book : AddressBook.t) :
  add_contact [u "John"] book
  = (u "not enough values to unpack (expected at least 2, got 1)", book)
  /\ change_contact [u "John"; u "1111111111"] book
     = (u "not enough values to unpack (expected 3, got 2)", book)
  /\ add_birthday [u "John"] book
     = (u "not enough values to unpack (expected 2, got 1)", book)
  /\ fst (add_contact [u "John"] book) <> msg_missing_args
  /\ fst (change_contact [u "John"; u "1111111111"] book) <> msg_missing_args
  /\ fst (add_birthday [u "John"] book) <> msg_missing_args
  /\ show_phone [] book = (msg_missing_args, book).
Proof. repeat split; discriminate. Qed.

(** ** [add_contact] on a name the book has *)

Lemma add_contact_existing (book : AddressBook.t) (nm phone : str)
  (rest : list str) (record : Record_.t) :
  AddressBook.find nm book = Some record ->
  add_contact (nm :: phone :: rest) book
  = match (if truthy phone then Record_.add_phone phone record
           else Ok record) with
    | Ok r =>
        let em := match rest with e :: _ => e | [] => [] end in
        (msg_updated,
         store nm (if truthy em then Record_.set_email r em else r) book)
    | Raise e => input_error (fun b => (Raise e, b)) book
    end.
Proof.
  intros Hf. unfold add_contact, input_error, add_contact_body.
  rewrite Hf.
  destruct (if truthy phone then Record_.add_phone phone record
            else Ok record) as [r|e]; reflexivity.
Qed.

(** C10, as the code has it: on a name the book has, [add] with a phone
    that [Phone] accepts appends it to the phones of the record, replaces
    the email only by a non-empty one, keeps name, earlier phones and
    birthday, touches no other record and answers that the contact was
    updated; with a non-empty phone that [Phone] rejects it answers with
    the validation message and changes nothing. *)
Theorem add_contact_existing_merges (book : AddressBook.t) (nm phone : str)
  (rest : list str) (record : Record_.t) :
  AddressBook.find nm book = Some record ->
  let em := match rest with e :: _ => e | [] => [] end in
  (isdigit phone = true /\ List.length phone = 10%nat ->
   exists record' book',
     add_contact (nm :: phone :: rest) book = (msg_updated, book')
     /\ msg_updated <> msg_added
     /\ AddressBook.find nm book' = Some record'
     /\ Record_.phones record' = Record_.phones record ++ [mkField phone]
     /\ Record_.email record' = (if truthy em then em else Record_.email record)
     /\ Record_.birthday record' = Record_.birthday record
     /\ Record_.name record' = Record_.name record
     /\ map fst book' = map fst book
     /\ forall k, k <> nm ->
          AddressBook.find k book' = AddressBook.find k book)
  /\ (truthy phone = true ->
      ~ (isdigit phone = true /\ List.length phone = 10%nat) ->
      add_contact (nm :: phone :: rest) book = (msg_phone_invalid, book)).
Proof.
  intros Hf em. split.
  - intros [Hd Hl].
    assert (Ht : truthy phone = true) by (destruct phone; [discriminate|auto]).
    rewrite (add_contact_existing book nm phone rest record Hf), Ht.
    unfold Record_.add_phone. rewrite (Phone_ok _ Hd Hl). simpl.
    fold em.
    set (r1 := Record_.set_phones record (Record_.phones record ++ [mkField phone])).
    exists (if truthy em then Record_.set_email r1 em else r1).
    eexists. split; [reflexivity|].
    split; [discriminate|].
    unfold store, AddressBook.find.
    split; [apply dict_get_set_same|].
    repeat split; try (destruct (truthy em); reflexivity).
    + apply dict_set_keys. unfold dict_contains.
      unfold AddressBook.find in Hf. now rewrite Hf.
    + intros k Hk. now apply dict_get_set_other.
  - intros Ht Hbad.
    rewrite (add_contact_existing book nm phone rest record Hf), Ht.
    unfold Record_.add_phone. rewrite (Phone_raises _ Hbad). reflexivity.
Qed.

Lemma add_contact_existing_merges_witness :
  exists record' book',
    add_contact [u "Ann"; u "2222222222"; u "ann@example.org"] book_with_ann
    = (msg_updated, book')
    /\ msg_updated <> msg_added
    /\ AddressBook.find (u "Ann") book' = Some record'
    /\ Record_.phones record'
       = Record_.phones ann_one_phone ++ [mkField (u "2222222222")]
    /\ Record_.email record'
       = (if truthy (u "ann@example.org") then u "ann@example.org"
          else Record_.email ann_one_phone)
    /\ Record_.birthday record' = Record_.birthday ann_one_phone
    /\ Record_.name record' = Record_.name ann_one_phone
    /\ map fst book' = map fst book_with_ann
    /\ forall k, k <> u "Ann" ->
         AddressBook.find k book' = AddressBook.find k book_with_ann.
Proof.
  apply (proj1 (add_contact_existing_merges book_with_ann (u "Ann")
                  (u "2222222222") [u "ann@example.org"] ann_one_phone
                  eq_refl)).
  split; reflexivity.
Defined.

(** C10 as stated fails: with a phone that is not valid, [add] on an
    existing name answers with the validation message and appends
    nothing. *)
Lemma add_contact_existing_invalid_phone :
  AddressBook.find (u "Ann") book_with_ann = Some ann_one_phone
  /\ add_contact [u "Ann"; u "12345"] book_with_ann
     = (msg_phone_invalid, book_with_ann)
  /\ msg_phone_invalid <> msg_updated.
Proof. repeat split; discriminate. Qed.

(** ** Calendar arithmetic *)

#[local] Arguments Z.add : simpl nomatch.
#[local] Arguments Z.sub : simpl nomatch.
#[local] Arguments Z.mul : simpl nomatch.
#[local] Arguments Z.opp : simpl nomatch.

(** Days before the year [400a + 100b + 4c + e + 1]. *)
Lemma dby_decomp a b c e :
  0 <= a -> 0 <= b <= 3 -> 0 <= c <= 24 -> 0 <= e <= 3 ->
  _days_before_year (400 * a + 100 * b + 4 * c + e + 1)
  = 146097 * a + 36524 * b + 1461 * c + 365 * e.
Proof.
  intros. unfold _days_before_year. Z.div_mod_to_equations. lia.
Qed.

(** Case analysis on an integer known to lie in a short range. *)
Ltac int_cases x fuel k tac :=
  lazymatch fuel with
  | O => exfalso; lia
  | S ?fuel' =>
      destruct (Z.eq_dec x k) as [->|];
      [tac
      |let k' := eval compute in (k + 1) in int_cases x fuel' k' tac]
  end.

Ltac case_eqb_zero :=
  repeat match goal with
    | |- context [?x =? 0] => destruct (Z.eqb_spec x 0)
    end.

Lemma is_leap_decomp a b c e :
  0 <= a -> 0 <= b <= 3 -> 0 <= c <= 24 -> 0 <= e <= 3 ->
  _is_leap (400 * a + 100 * b + 4 * c + e + 1)
  = (e =? 3) && (negb (c =? 24) || (b =? 3)).
Proof.
  intros. unfold _is_leap.
  destruct (Z.eqb_spec e 3), (Z.eqb_spec c 24), (Z.eqb_spec b 3);
    case_eqb_zero; simpl; try reflexivity; exfalso;
    Z.div_mod_to_equations; lia.
Qed.

Lemma dby_succ y :
  _days_before_year (y + 1)
  = _days_before_year y + (if _is_leap y then 366 else 365).
Proof.
  unfold _days_before_year, _is_leap.
  case_eqb_zero; simpl; Z.div_mod_to_equations; lia.
Qed.

Lemma dby_bounds y : 1 <= y <= 10000 -> 0 <= _days_before_year y <= 3652059.
Proof.
  intros. unfold _days_before_year. Z.div_mod_to_equations. lia.
Qed.

Lemma month_day_spec n (leap : bool) :
  0 <= n < (if leap then 366 else 365) ->
  let '(m, d) := month_day n leap in
  1 <= m <= 12
  /\ 1 <= d <= (if (m =? 2) && leap then 29
                else nth (Z.to_nat m) _DAYS_IN_MONTH 0)
  /\ nth (Z.to_nat m) _DAYS_BEFORE_MONTH 0
     + (if (2 <? m) && leap then 1 else 0) + d = n + 1.
Proof.
  intros Hn. unfold month_day. rewrite Z.shiftr_div_pow2 by lia.
  change (2 ^ 5) with 32.
  assert (Hm : 1 <= (n + 50) / 32 <= 12)
    by (destruct leap; Z.div_mod_to_equations; lia).
  assert (Hq : 32 * ((n + 50) / 32) <= n + 50 < 32 * ((n + 50) / 32) + 32)
    by (Z.div_mod_to_equations; lia).
  remember ((n + 50) / 32) as m eqn:Em. clear Em.
  assert (Hc : m = 1 \/ m = 2 \/ m = 3 \/ m = 4 \/ m = 5 \/ m = 6 \/ m = 7
               \/ m = 8 \/ m = 9 \/ m = 10 \/ m = 11 \/ m = 12) by lia.
  destruct Hc as [->|[->|[->|[->|[->|[->|[->|[->|[->|[->|[->| ->]]]]]]]]]]];
    destruct leap; simpl;
    match goal with |- context [?a <? ?b] => destruct (Z.ltb_spec a b) end;
    simpl; lia.
Qed.

Lemma ord2ymd_unfold n :
  _ord2ymd n =
  let n0 := n - 1 in
  let a := n0 / 146097 in
  let r1 := n0 mod 146097 in
  let b := r1 / 36524 in
  let r2 := r1 mod 36524 in
  let c := r2 / 1461 in
  let r3 := r2 mod 1461 in
  let e := r3 / 365 in
  let r4 := r3 mod 365 in
  let y := a * 400 + 1 + b * 100 + c * 4 + e in
  if (e =? 4) || (b =? 4) then (y - 1, 12, 31)
  else
    let '(m, d) := month_day r4 ((e =? 3) && (negb (c =? 24) || (b =? 3))) in
    (y, m, d).
Proof.
  unfold _ord2ymd, month_day, _DI400Y, _DI100Y, _DI4Y. cbv zeta.
  destruct ((_ =? 4) || (_ =? 4)); [reflexivity|].
  match goal with |- context [if ?t then _ else _] => destruct t end;
    reflexivity.
Qed.

(** [_ord2ymd] inverts [_ymd2ord] on the ordinals of the calendar, and its
    result is a date that exists. *)
Lemma ord2ymd_spec n :
  1 <= n <= _MAXORDINAL ->
  let '(y, m, d) := _ord2ymd n in
  1 <= y <= 9999 /\ 1 <= m <= 12 /\ 1 <= d <= _days_in_month y m
  /\ _ymd2ord y m d = n.
Proof.
  unfold _MAXORDINAL. intros Hn. rewrite ord2ymd_unfold. cbv zeta.
  assert (H1 := Z.div_mod (n - 1) 146097 ltac:(lia)).
  assert (B1 := Z.mod_pos_bound (n - 1) 146097 ltac:(lia)).
  set (a := (n - 1) / 146097) in *. set (r1 := (n - 1) mod 146097) in *.
  assert (H2 := Z.div_mod r1 36524 ltac:(lia)).
  assert (B2 := Z.mod_pos_bound r1 36524 ltac:(lia)).
  set (b := r1 / 36524) in *. set (r2 := r1 mod 36524) in *.
  assert (H3 := Z.div_mod r2 1461 ltac:(lia)).
  assert (B3 := Z.mod_pos_bound r2 1461 ltac:(lia)).
  set (c := r2 / 1461) in *. set (r3 := r2 mod 1461) in *.
  assert (H4 := Z.div_mod r3 365 ltac:(lia)).
  assert (B4 := Z.mod_pos_bound r3 365 ltac:(lia)).
  set (e := r3 / 365) in *. set (r4 := r3 mod 365) in *.
  clearbody a r1 b r2 c r3 e r4.
  assert (Ha : 0 <= a <= 24) by lia.
  assert (Hb : 0 <= b <= 4) by lia.
  assert (Hc : 0 <= c <= 24) by lia.
  assert (He : 0 <= e <= 4) by lia.
  destruct (Z.eqb_spec b 4) as [Eb|Eb];
    [|destruct (Z.eqb_spec e 4) as [Ee|Ee]].
  - (* the last day of a 400-year cycle *)
    rewrite orb_true_r.
    assert (r2 = 0 /\ c = 0 /\ e = 0 /\ r4 = 0) as (-> & -> & -> & ->) by lia.
    subst b.
    replace (a * 400 + 1 + 4 * 100 + 0 * 4 + 0 - 1)
      with (400 * a + 100 * 3 + 4 * 24 + 3 + 1) by lia.
    unfold _ymd2ord, _days_in_month, _days_before_month.
    rewrite dby_decomp, is_leap_decomp by lia. simpl. lia.
  - (* the last day of a leap year *)
    simpl.
    assert (r4 = 0 /\ c <= 23) as (-> & Hc') by lia. subst e.
    replace (a * 400 + 1 + b * 100 + c * 4 + 4 - 1)
      with (400 * a + 100 * b + 4 * c + 3 + 1) by lia.
    unfold _ymd2ord, _days_in_month, _days_before_month.
    rewrite dby_decomp, is_leap_decomp by lia.
    replace (c =? 24) with false by (symmetry; apply Z.eqb_neq; lia).
    simpl. lia.
  - simpl.
    replace (a * 400 + 1 + b * 100 + c * 4 + e)
      with (400 * a + 100 * b + 4 * c + e + 1) by lia.
    set (leap := (e =? 3) && (negb (c =? 24) || (b =? 3))).
    assert (Hr : 0 <= r4 < (if leap then 366 else 365))
      by (destruct leap; lia).
    assert (M := month_day_spec r4 leap Hr).
    destruct (month_day r4 leap) as [m d].
    unfold _ymd2ord, _days_in_month, _days_before_month.
    rewrite dby_decomp, is_leap_decomp by lia. fold leap. lia.
Qed.

Lemma valid_dateb_spec d :
  valid_dateb d = true <->
  1 <= year d <= 9999 /\ 1 <= month d <= 12
  /\ 1 <= day d <= _days_in_month (year d) (month d).
Proof.
  unfold valid_dateb, MINYEAR, MAXYEAR.
  rewrite !andb_true_iff, !Z.leb_le. tauto.
Qed.

Lemma fromordinal_toordinal n :
  1 <= n <= _MAXORDINAL ->
  valid_dateb (fromordinal n) = true /\ toordinal (fromordinal n) = n.
Proof.
  intros Hn. assert (H := ord2ymd_spec n Hn).
  unfold fromordinal, toordinal. destruct (_ord2ymd n) as [[y m] d].
  rewrite valid_dateb_spec. simpl. tauto.
Qed.

(** Days of the year up to a date: at most the length of the year. *)
Lemma day_of_year_bounds y m d :
  1 <= m <= 12 -> 1 <= d <= _days_in_month y m ->
  1 <= _days_before_month y m + d <= (if _is_leap y then 366 else 365).
Proof.
  intros Hm. unfold _days_in_month, _days_before_month.
  assert (Hc : m = 1 \/ m = 2 \/ m = 3 \/ m = 4 \/ m = 5 \/ m = 6 \/ m = 7
               \/ m = 8 \/ m = 9 \/ m = 10 \/ m = 11 \/ m = 12) by lia.
  destruct Hc as [->|[->|[->|[->|[->|[->|[->|[->|[->|[->|[->| ->]]]]]]]]]]];
    destruct (_is_leap y); simpl; lia.
Qed.

Lemma toordinal_bounds d :
  valid_dateb d = true -> 1 <= toordinal d <= _MAXORDINAL.
Proof.
  rewrite valid_dateb_spec. intros (Hy & Hm & Hd).
  unfold toordinal, _ymd2ord, _MAXORDINAL.
  assert (A := day_of_year_bounds _ _ _ Hm Hd).
  assert (B := dby_succ (year d)).
  assert (C := dby_bounds (year d) ltac:(lia)).
  assert (D := dby_bounds (year d + 1) ltac:(lia)).
  lia.
Qed.

(** The last day of the calendar is a Friday, so the move of a weekend
    date to the Monday after it stays inside the calendar. *)
Lemma weekend_shift_in_range d :
  valid_dateb d = true -> 5 <= weekday d ->
  1 <= toordinal d + (7 - weekday d) <= _MAXORDINAL.
Proof.
  intros Hv Hw. assert (B := toordinal_bounds d Hv).
  unfold weekday, _MAXORDINAL in *. Z.div_mod_to_equations. lia.
Qed.

Lemma date_new_ok y m d :
  valid_dateb (mkdate y m d) = true -> date_new y m d = Ok (mkdate y m d).
Proof.
  unfold valid_dateb, date_new. simpl. rewrite !andb_true_iff.
  intros [[[[[-> ->] ->] ->] ->] ->]. reflexivity.
Qed.

Lemma date_new_inv y m d x :
  date_new y m d = Ok x -> x = mkdate y m d /\ valid_dateb x = true.
Proof.
  unfold date_new, valid_dateb.
  destruct ((MINYEAR <=? y) && (y <=? MAXYEAR)) eqn:Ey; simpl; [|discriminate].
  destruct ((1 <=? m) && (m <=? 12)) eqn:Em; simpl; [|discriminate].
  destruct ((1 <=? d) && (d <=? _days_in_month y m)) eqn:Ed; simpl;
    [|discriminate].
  intros [= <-]. simpl. split; [reflexivity|].
  apply andb_true_iff in Ey, Em, Ed.
  destruct Ey as [-> ->], Em as [-> ->], Ed as [-> ->]. reflexivity.
Qed.

Lemma date_new_raises y m d :
  valid_dateb (mkdate y m d) = false ->
  exists msg, date_new y m d = Raise (ValueError msg).
Proof.
  unfold valid_dateb, date_new. simpl.
  destruct ((MINYEAR <=? y) && (y <=? MAXYEAR)); simpl; [|eauto].
  destruct ((1 <=? m) && (m <=? 12)); simpl; [|eauto].
  destruct (1 <=? d); simpl; [|eauto].
  destruct (d <=? _days_in_month y m); simpl; [discriminate|eauto].
Qed.

Lemma dby_mono y y' : y <= y' -> _days_before_year y <= _days_before_year y'.
Proof.
  intros. unfold _days_before_year. Z.div_mod_to_equations. lia.
Qed.

Lemma dbm_mono y m m' :
  1 <= m -> m < m' -> m' <= 12 ->
  _days_before_month y m + _days_in_month y m <= _days_before_month y m'.
Proof.
  intros H1 H2 H3. unfold _days_before_month, _days_in_month.
  int_cases m 11%nat 1 ltac:(idtac).
  all: int_cases m' 12%nat 2 ltac:(idtac).
  all: destruct (_is_leap y); simpl; lia.
Qed.

(** The order of dates is the order of their ordinals. *)
Lemma date_ltb_toordinal a b :
  valid_dateb a = true -> valid_dateb b = true ->
  (date_ltb a b = true <-> toordinal a < toordinal b).
Proof.
  rewrite !valid_dateb_spec. intros (Hya & Hma & Hda) (Hyb & Hmb & Hdb).
  unfold date_ltb, toordinal, _ymd2ord.
  rewrite !orb_true_iff, !andb_true_iff, !orb_true_iff, !andb_true_iff,
    !Z.ltb_lt, !Z.eqb_eq.
  assert (A := day_of_year_bounds _ _ _ Hma Hda).
  assert (B := day_of_year_bounds _ _ _ Hmb Hdb).
  assert (Sa := dby_succ (year a)). assert (Sb := dby_succ (year b)).
  destruct (Z.lt_trichotomy (year a) (year b)) as [Hy|[Hy|Hy]].
  - assert (M := dby_mono (year a + 1) (year b) ltac:(lia)). split; [lia|auto].
  - rewrite Hy in *.
    destruct (Z.lt_trichotomy (month a) (month b)) as [Hm|[Hm|Hm]].
    + assert (M := dbm_mono (year b) (month a) (month b) ltac:(lia) Hm ltac:(lia)).
      split; [lia|auto].
    + rewrite Hm in *. split; [lia|]. intros. right. split; auto. right. split; auto. lia.
    + assert (M := dbm_mono (year b) (month b) (month a) ltac:(lia) Hm ltac:(lia)).
      split; lia.
  - assert (M := dby_mono (year b + 1) (year a) ltac:(lia)). split; lia.
Qed.

(** ** Parsing and validating a birthday *)

Lemma first_match_some {A B} (k : A -> option B) (l : list A) (x : B) :
  first_match k l = Some x -> exists a, In a l /\ k a = Some x.
Proof.
  induction l as [|a l IH]; simpl; [discriminate|].
  destruct (k a) as [b|] eqn:E.
  - intros [= <-]. exists a. auto.
  - intros H. destruct (IH H) as (a' & Ha' & Hk). exists a'. auto.
Qed.

Lemma first_match_none {A B} (k : A -> option B) (l : list A) :
  (forall a, In a l -> k a = None) -> first_match k l = None.
Proof.
  induction l as [|a l IH]; simpl; [reflexivity|].
  intros H. rewrite (H a) by auto. apply IH. auto.
Qed.

(** When one alternative only lets the continuation succeed, the match is
    what the continuation gives after it. *)
Lemma first_match_unique {A B} (k : A -> option B) (l : list A) (a0 : A) :
  In a0 l -> (forall a, In a l -> k a <> None -> a = a0) ->
  first_match k l = k a0.
Proof.
  induction l as [|a l IH]; simpl; [intros []|].
  intros Hin Hu. destruct (k a) as [b|] eqn:E.
  - rewrite <- (Hu a) by (auto; congruence). now rewrite E.
  - destruct Hin as [->|Hin]; [|apply IH; auto].
    rewrite E. apply first_match_none. intros a Ha.
    destruct (k a) as [b|] eqn:Ea; [|reflexivity].
    rewrite (Hu a) in Ea by (auto; congruence). congruence.
Qed.

Lemma alt1_in p s g r :
  In (g, r) (alt1 p s) <-> exists a, g = [a] /\ s = a :: r /\ p a = true.
Proof.
  unfold alt1. split.
  - destruct s as [|a s]; [intros []|].
    destruct (p a) eqn:E; [|intros []]. intros [[= <- <-]|[]]. eauto.
  - intros (a & -> & -> & ->). now left.
Qed.

Lemma alt2_in p1 p2 s g r :
  In (g, r) (alt2 p1 p2 s)
  <-> exists a b, g = [a; b] /\ s = a :: b :: r
                  /\ p1 a = true /\ p2 b = true.
Proof.
  unfold alt2. split.
  - destruct s as [|a [|b s]]; try (intros []).
    destruct (p1 a && p2 b) eqn:E; [|intros []].
    apply andb_true_iff in E. intros [[= <- <-]|[]].
    exists a, b. tauto.
  - intros (a & b & -> & -> & -> & ->). now left.
Qed.

Lemma in_range_spec lo hi c :
  in_range lo hi c = true <-> (lo <= c <= hi)%N.
Proof.
  unfold in_range. now rewrite andb_true_iff, !N.leb_le.
Qed.

(** The alternatives of [%d] that match are the day texts at the start of
    the input. *)
Lemma re_d_in s g r :
  In (g, r) (re_d s) <-> s = g ++ r /\ day_group g = true.
Proof.
  unfold re_d. rewrite !in_app_iff, !alt2_in, alt1_in. split.
  - intros [H|[H|[H|[H|H]]]].
    + destruct H as (a & b & -> & -> & Ha & Hb). split; [reflexivity|].
      unfold day_group. rewrite N.eqb_sym in Ha.
      rewrite !orb_true_iff, !andb_true_iff. auto.
    + destruct H as (a & b & -> & -> & Ha & Hb). split; [reflexivity|].
      unfold day_group. rewrite !orb_true_iff, !andb_true_iff. auto.
    + destruct H as (a & b & -> & -> & Ha & Hb). split; [reflexivity|].
      unfold day_group. rewrite N.eqb_sym in Ha.
      rewrite !orb_true_iff, !andb_true_iff, orb_true_iff. auto.
    + destruct H as (a & -> & -> & Ha). split; [reflexivity|]. exact Ha.
    + destruct H as (a & b & -> & -> & Ha & Hb). split; [reflexivity|].
      unfold day_group. rewrite N.eqb_sym in Ha.
      rewrite !orb_true_iff, !andb_true_iff, orb_true_iff. auto.
  - intros [-> H]. destruct g as [|a [|b [|]]]; try discriminate.
    + right; right; right; left. exists a. auto.
    + unfold day_group in H.
      rewrite !orb_true_iff, !andb_true_iff, orb_true_iff in H.
      destruct H as [[[[H|H] Hb]|[Ha Hb]]|[Ha Hb]].
      * rewrite N.eqb_sym in H.
        right; right; left. exists a, b. auto.
      * rewrite N.eqb_sym in H.
        right; right; right; right. exists a, b. auto.
      * right; left. exists a, b. auto.
      * rewrite N.eqb_sym in Ha. left. exists a, b. auto.
Qed.

Lemma re_m_in s g r :
  In (g, r) (re_m s) <-> s = g ++ r /\ month_group g = true.
Proof.
  unfold re_m. rewrite !in_app_iff, !alt2_in, alt1_in. split.
  - intros [H|[H|H]].
    + destruct H as (a & b & -> & -> & Ha & Hb). split; [reflexivity|].
      unfold month_group. rewrite N.eqb_sym in Ha.
      rewrite orb_true_iff, !andb_true_iff. auto.
    + destruct H as (a & b & -> & -> & Ha & Hb). split; [reflexivity|].
      unfold month_group. rewrite N.eqb_sym in Ha.
      rewrite orb_true_iff, !andb_true_iff. auto.
    + destruct H as (a & -> & -> & Ha). split; [reflexivity|]. exact Ha.
  - intros [-> H]. destruct g as [|a [|b [|]]]; try discriminate.
    + right; right. exists a. auto.
    + unfold month_group in H. rewrite orb_true_iff, !andb_true_iff in H.
      destruct H as [[Ha Hb]|[Ha Hb]]; rewrite N.eqb_sym in Ha.
      * right; left. exists a, b. auto.
      * left. exists a, b. auto.
Qed.

Lemma re_Y_in s g r :
  In (g, r) (re_Y s) <-> s = g ++ r /\ year_group g = true.
Proof.
  unfold re_Y, year_group. split.
  - destruct s as [|a [|b [|c [|d s]]]]; try (intros []).
    destruct (isdecimal_char a && isdecimal_char b
              && isdecimal_char c && isdecimal_char d) eqn:E; [|intros []].
    intros [[= <- <-]|[]]. simpl. rewrite andb_true_r.
    now rewrite <- !andb_assoc in E.
  - intros [-> H]. apply andb_true_iff in H. destruct H as [L D].
    apply Nat.eqb_eq in L.
    destruct g as [|a [|b [|c [|d [|]]]]]; try discriminate.
    simpl in D. rewrite andb_true_r in D. simpl.
    rewrite <- !andb_assoc, D. now left.
Qed.

Lemma re_dot_some s r : re_dot s = Some r <-> s = dot :: r.
Proof.
  unfold re_dot. split.
  - destruct s as [|a s]; [discriminate|].
    destruct (N.eqb_spec a dot); [|discriminate]. now intros [= <-]; subst.
  - intros ->. now rewrite N.eqb_refl.
Qed.

(** No text of a day or of a month has a dot in it. *)
Lemma isdecimal_char_dot : isdecimal_char dot = false.
Proof. reflexivity. Qed.

Lemma day_group_no_dot g : day_group g = true -> ~ In dot g.
Proof.
  destruct g as [|a [|b [|]]]; try discriminate; unfold day_group.
  - rewrite in_range_spec. intros H [->|[]]. unfold c1, c9, dot in H. lia.
  - rewrite !orb_true_iff, !andb_true_iff, orb_true_iff, !in_range_spec,
      !N.eqb_eq.
    intros H [->|[->|[]]].
    + unfold c0, c1, c2, c3, c9, space, dot in H. lia.
    + destruct H as [[[_ H]|[_ H]]|[_ H]].
      * unfold c1, c9, dot in H. lia.
      * rewrite isdecimal_char_dot in H. discriminate.
      * unfold c0, c1, dot in H. lia.
Qed.

Lemma month_group_no_dot g : month_group g = true -> ~ In dot g.
Proof.
  destruct g as [|a [|b [|]]]; try discriminate; unfold month_group.
  - rewrite in_range_spec. intros H [->|[]]. unfold c1, c9, dot in H. lia.
  - rewrite !orb_true_iff, !andb_true_iff, !in_range_spec, !N.eqb_eq.
    intros H [->|[->|[]]]; unfold c0, c1, c2, c9, dot in H; lia.
Qed.

(** A text is cut at its first dot in one way only. *)
Lemma cut_at_dot (g1 g2 r1 r2 : str) :
  ~ In dot g1 -> ~ In dot g2 ->
  g1 ++ dot :: r1 = g2 ++ dot :: r2 -> g1 = g2 /\ r1 = r2.
Proof.
  revert g2. induction g1 as [|a g1 IH]; intros [|b g2] N1 N2 E; simpl in *.
  - injection E as <-. auto.
  - injection E as <- _. tauto.
  - injection E as -> _. tauto.
  - injection E as <- E. destruct (IH g2) as [<- <-]; auto.
Qed.

(** The match of the expression: the input is a day text, a dot, a month
    text, a dot and a year text, cut at the dots, and what comes after. *)
Lemma re_match_spec s ds ms ys rest :
  re_match s = Some (ds, ms, ys, rest)
  <-> s = ds ++ [dot] ++ ms ++ [dot] ++ ys ++ rest
      /\ day_group ds = true /\ month_group ms = true
      /\ year_group ys = true.
Proof.
  unfold re_match. split.
  - intros H.
    apply first_match_some in H. destruct H as ([d1 r1] & Hd & H).
    apply re_d_in in Hd. destruct Hd as [-> Gd].
    destruct (re_dot r1) as [r2|] eqn:D1; [|discriminate].
    apply re_dot_some in D1. subst r1.
    apply first_match_some in H. destruct H as ([m1 r3] & Hm & H).
    apply re_m_in in Hm. destruct Hm as [-> Gm].
    destruct (re_dot r3) as [r4|] eqn:D2; [|discriminate].
    apply re_dot_some in D2. subst r3.
    apply first_match_some in H. destruct H as ([y1 r5] & Hy & H).
    apply re_Y_in in Hy. destruct Hy as (-> & Gy).
    injection H as <- <- <- <-. auto.
  - intros (-> & Gd & Gm & Gy). simpl.
    rewrite (first_match_unique _ _ (ds, dot :: ms ++ dot :: ys ++ rest)).
    + rewrite (proj2 (re_dot_some _ _) eq_refl).
      rewrite (first_match_unique _ _ (ms, dot :: ys ++ rest)).
      * rewrite (proj2 (re_dot_some _ _) eq_refl).
        assert (Y := proj2 (re_Y_in (ys ++ rest) ys rest) (conj eq_refl Gy)).
        unfold re_Y in *.
        destruct (ys ++ rest) as [|a [|b [|c [|d r]]]]; try (now destruct Y).
        destruct (isdecimal_char a && isdecimal_char b
                  && isdecimal_char c && isdecimal_char d); [|now destruct Y].
        destruct Y as [[= <- <-]|[]]. reflexivity.
      * apply re_m_in. auto.
      * intros [g r] Hg Hk. apply re_m_in in Hg. destruct Hg as [E Gg].
        destruct (re_dot r) as [r'|] eqn:D; [|congruence].
        apply re_dot_some in D. subst r.
        destruct (cut_at_dot ms g (ys ++ rest) r') as [<- <-];
          auto using month_group_no_dot.
    + apply re_d_in. auto.
    + intros [g r] Hg Hk. apply re_d_in in Hg. destruct Hg as [E Gg].
      destruct (re_dot r) as [r'|] eqn:D; [|congruence].
      apply re_dot_some in D. subst r.
      destruct (cut_at_dot ds g (ms ++ dot :: ys ++ rest) r') as [<- <-];
        auto using day_group_no_dot.
Qed.

Lemma strptime_valid s d : strptime s = Ok d -> valid_dateb d = true.
Proof.
  unfold strptime. destruct (re_match s) as [[[[ds ms] ys] rest]|];
    [|discriminate].
  destruct rest; [|discriminate].
  destruct (py_int ys), (py_int ms), (py_int ds); try discriminate.
  intros H. now apply date_new_inv in H.
Qed.

(** [strptime] reads a text as a date exactly when the text is a day, a
    month and a year between dots that are those of the date, and the
    date exists. *)
Lemma strptime_spec s d :
  strptime s = Ok d <-> date_text s d /\ valid_dateb d = true.
Proof.
  split.
  - intros H. split; [|now apply strptime_valid in H].
    unfold strptime in H.
    destruct (re_match s) as [[[[ds ms] ys] rest]|] eqn:M; [|discriminate].
    destruct rest; [|discriminate].
    apply re_match_spec in M. rewrite app_nil_r in M.
    destruct M as (-> & Gd & Gm & Gy).
    destruct (py_int ys) as [y|] eqn:Ey; [|discriminate].
    destruct (py_int ms) as [m|] eqn:Em; [|discriminate].
    destruct (py_int ds) as [dd|] eqn:Ed; [|discriminate].
    apply date_new_inv in H. destruct H as [-> _].
    exists ds, ms, ys. simpl. auto 10.
  - intros [(ds & ms & ys & -> & Gd & Gm & Gy & Id & Im & Iy) V].
    unfold strptime.
    rewrite (proj2 (re_match_spec _ ds ms ys [])), Iy, Im, Id.
    + destruct d as [y m dd]. now apply date_new_ok.
    + rewrite app_nil_r. auto.
Qed.

Lemma strptime_raises_ValueError s e :
  strptime s = Raise e -> exists msg, e = ValueError msg.
Proof.
  unfold strptime.
  destruct (re_match s) as [[[[ds ms] ys] rest]|]; [|intros [= <-]; eauto].
  destruct rest; [|intros [= <-]; eauto].
  destruct (py_int ys) as [y|]; [|intros [= <-]; eauto].
  destruct (py_int ms) as [m|]; [|intros [= <-]; eauto].
  destruct (py_int ds) as [dd|]; [|intros [= <-]; eauto].
  destruct (valid_dateb (mkdate y m dd)) eqn:V.
  - now rewrite (date_new_ok _ _ _ V).
  - destruct (date_new_raises _ _ _ V) as [msg ->]. intros [= <-]. eauto.
Qed.

Lemma Birthday_spec s :
  (forall d, strptime s = Ok d -> Birthday s = Ok (mkField s))
  /\ ((forall d, strptime s <> Ok d) ->
      Birthday s = Raise (ValueError msg_date_invalid)).
Proof.
  unfold Birthday. split.
  - intros d ->. reflexivity.
  - intros H. destruct (strptime s) as [d|e] eqn:E.
    + now destruct (H d).
    + destruct (strptime_raises_ValueError _ _ E) as [msg ->]. reflexivity.
Qed.

Lemma decimal_value_digit k :
  0 <= k <= 9 ->
  decimal_value (digit_char k) = Some k
  /\ isdecimal_char (digit_char k) = true
  /\ (digit_char k =? 32)%N = false.
Proof.
  intros H. int_cases k 10%nat 0 ltac:(repeat split).
Qed.

Lemma zero_pad_4 n :
  zero_pad 4 n
  = [digit_char (n / 10 / 10 / 10 mod 10); digit_char (n / 10 / 10 mod 10);
     digit_char (n / 10 mod 10); digit_char (n mod 10)].
Proof. reflexivity. Qed.

(** The numerals of a day, with and without a leading zero. *)
Lemma day_numerals dd :
  1 <= dd <= 31 ->
  day_group (zero_pad 2 dd) = true /\ py_int (zero_pad 2 dd) = Some dd
  /\ day_group (str_of_Z dd) = true /\ py_int (str_of_Z dd) = Some dd.
Proof.
  intros H. int_cases dd 31%nat 1 ltac:(repeat split).
Qed.

Lemma month_numerals mm :
  1 <= mm <= 12 ->
  month_group (zero_pad 2 mm) = true /\ py_int (zero_pad 2 mm) = Some mm
  /\ month_group (str_of_Z mm) = true /\ py_int (str_of_Z mm) = Some mm.
Proof.
  intros H. int_cases mm 12%nat 1 ltac:(repeat split).
Qed.

Lemma year_numeral y :
  0 <= y <= 9999 ->
  year_group (zero_pad 4 y) = true /\ py_int (zero_pad 4 y) = Some y.
Proof.
  intros H. rewrite zero_pad_4.
  assert (D3 : 0 <= y / 10 / 10 / 10 mod 10 <= 9)
    by (Z.div_mod_to_equations; lia).
  assert (D2 : 0 <= y / 10 / 10 mod 10 <= 9) by (Z.div_mod_to_equations; lia).
  assert (D1 : 0 <= y / 10 mod 10 <= 9) by (Z.div_mod_to_equations; lia).
  assert (D0 : 0 <= y mod 10 <= 9) by (Z.div_mod_to_equations; lia).
  destruct (decimal_value_digit _ D3) as (V3 & I3 & S3).
  destruct (decimal_value_digit _ D2) as (V2 & I2 & _).
  destruct (decimal_value_digit _ D1) as (V1 & I1 & _).
  destruct (decimal_value_digit _ D0) as (V0 & I0 & _).
  split.
  - unfold year_group. cbn [List.length Nat.eqb forallb].
    now rewrite I3, I2, I1, I0.
  - unfold py_int. rewrite S3. unfold int_digits.
    rewrite V3, V2, V1, V0. f_equal. Z.div_mod_to_equations. lia.
Qed.

(** From 1000 on, the decimal text of a year has four digits. *)
Lemma str_of_Z_year y : 1000 <= y <= 9999 -> str_of_Z y = zero_pad 4 y.
Proof.
  intros H. unfold str_of_Z.
  replace (y <? 0) with false by (symmetry; apply Z.ltb_ge; lia).
  assert (L : 9 <= Z.log2 y).
  { change 9 with (Z.log2 1000). apply Z.log2_le_mono. lia. }
  destruct (Z.to_nat (Z.log2 y)) as [|[|[|fuel]]] eqn:F; try lia.
  rewrite zero_pad_4. cbn [str_of_nat_aux].
  replace (y / 10 =? 0) with false
    by (symmetry; apply Z.eqb_neq; Z.div_mod_to_equations; lia).
  replace (y / 10 / 10 =? 0) with false
    by (symmetry; apply Z.eqb_neq; Z.div_mod_to_equations; lia).
  replace (y / 10 / 10 / 10 =? 0) with false
    by (symmetry; apply Z.eqb_neq; Z.div_mod_to_equations; lia).
  replace (y / 10 / 10 / 10 / 10 =? 0) with true
    by (symmetry; apply Z.eqb_eq; Z.div_mod_to_equations; lia).
  reflexivity.
Qed.

Lemma valid_day_month d :
  valid_dateb d = true ->
  1 <= year d <= 9999 /\ 1 <= month d <= 12 /\ 1 <= day d <= 31.
Proof.
  intros V. apply valid_dateb_spec in V. destruct V as (Hy & Hm & Hd).
  split; [assumption|]. split; [assumption|].
  unfold _days_in_month in Hd.
  destruct ((month d =? 2) && _is_leap (year d)); [lia|].
  assert (Hc : forall m, 1 <= m <= 12 ->
                 nth (Z.to_nat m) _DAYS_IN_MONTH 0 <= 31).
  { intros m Hm'. int_cases m 12%nat 1 ltac:(simpl; lia). }
  specialize (Hc _ Hm). lia.
Qed.

(** A date that exists is read from its numerals, the day and the month
    written with or without a leading zero. *)
Lemma strptime_numerals d ds ms :
  valid_dateb d = true ->
  ds = zero_pad 2 (day d) \/ ds = str_of_Z (day d) ->
  ms = zero_pad 2 (month d) \/ ms = str_of_Z (month d) ->
  strptime (ds ++ [dot] ++ ms ++ [dot] ++ zero_pad 4 (year d)) = Ok d.
Proof.
  intros V Hds Hms. apply strptime_spec. split; [|assumption].
  destruct (valid_day_month d V) as (Hy & Hm & Hd).
  destruct (day_numerals _ Hd) as (G1 & I1 & G2 & I2).
  destruct (month_numerals _ Hm) as (G3 & I3 & G4 & I4).
  destruct (year_numeral (year d) ltac:(lia)) as (G5 & I5).
  exists ds, ms, (zero_pad 4 (year d)).
  split; [reflexivity|].
  destruct Hds as [-> | ->], Hms as [-> | ->]; auto 10.
Qed.

Lemma strptime_ddmmyyyy d :
  valid_dateb d = true -> strptime (ddmmyyyy d) = Ok d.
Proof. intros V. apply strptime_numerals; auto. Qed.

Lemma strftime_ddmmyyyy d : 1000 <= year d <= 9999 -> strftime d = ddmmyyyy d.
Proof.
  intros H. unfold strftime, ddmmyyyy. now rewrite str_of_Z_year.
Qed.

(** [strptime] reads back what [strftime] writes for a year of four
    digits. *)
Lemma strptime_strftime d :
  valid_dateb d = true -> 1000 <= year d -> strptime (strftime d) = Ok d.
Proof.
  intros V H. destruct (valid_day_month d V) as (Hy & _).
  rewrite strftime_ddmmyyyy by lia. now apply strptime_ddmmyyyy.
Qed.

(** C5, as the code has it: [Birthday] accepts a text exactly when it is
    a day, a dot, a month, a dot and a year of four decimal digits that
    are the day, the month and the year of a date that exists, and raises
    otherwise; it stores the text it accepts unchanged.  So it accepts
    every such date written as DD.MM.YYYY, and also written without the
    leading zero of the day or of the month: 1.1.2024 is accepted;
    31.02.2024 and 30.02.2023 are not. *)
Theorem Birthday_accepts_what_strptime_reads :
  (forall s,
     Birthday s = Ok (mkField s)
     <-> exists d, date_text s d /\ valid_dateb d = true)
  /\ (forall s,
        (forall d, ~ (date_text s d /\ valid_dateb d = true)) ->
        Birthday s = Raise (ValueError msg_date_invalid))
  /\ (forall s f,
        Birthday s = Ok f ->
        f = mkField s /\ Field_str f = s
        /\ exists d, strptime s = Ok d /\ date_text s d
                     /\ valid_dateb d = true)
  /\ (forall d ds ms,
        valid_dateb d = true ->
        ds = zero_pad 2 (day d) \/ ds = str_of_Z (day d) ->
        ms = zero_pad 2 (month d) \/ ms = str_of_Z (month d) ->
        Birthday (ds ++ [dot] ++ ms ++ [dot] ++ zero_pad 4 (year d))
        = Ok (mkField (ds ++ [dot] ++ ms ++ [dot] ++ zero_pad 4 (year d))))
  /\ (forall d,
        valid_dateb d = true ->
        Birthday (ddmmyyyy d) = Ok (mkField (ddmmyyyy d))
        /\ List.length (ddmmyyyy d) = 10%nat)
  /\ Birthday (u "31.02.2024") = Raise (ValueError msg_date_invalid)
  /\ Birthday (u "30.02.2023") = Raise (ValueError msg_date_invalid)
  /\ Birthday (u "2024-01-01") = Raise (ValueError msg_date_invalid)
  /\ Birthday (u "1.1.2024") = Ok (mkField (u "1.1.2024")).
Proof.
  split; [|split; [|split; [|split; [|split; [|repeat split]]]]].
  - intros s. split.
    + intros H. unfold Birthday in H.
      destruct (strptime s) as [d|e] eqn:E; [|destruct e; discriminate].
      exists d. now apply strptime_spec.
    + intros [d H]. apply strptime_spec in H.
      now apply (proj1 (Birthday_spec s) d).
  - intros s H. apply Birthday_spec. intros d Hd.
    apply (H d). now apply strptime_spec.
  - intros s f H. unfold Birthday in H.
    destruct (strptime s) as [d|e] eqn:E.
    + injection H as <-. split; [reflexivity|]. split; [reflexivity|].
      exists d. split; [reflexivity|]. now apply strptime_spec.
    + destruct e; discriminate.
  - intros d ds ms V Hds Hms.
    apply (proj1 (Birthday_spec _) d). now apply strptime_numerals.
  - intros d V. split; [|reflexivity].
    apply (proj1 (Birthday_spec (ddmmyyyy d)) d).
    now apply strptime_ddmmyyyy.
Qed.

Lemma Birthday_accepts_what_strptime_reads_witness :
  Birthday (u "5.3.1999") = Ok (mkField (u "5.3.1999")).
Proof.
  apply (proj1 (proj2 (proj2 (proj2 Birthday_accepts_what_strptime_reads)))
           (mkdate 1999 3 5) (u "5") (u "3")).
  - reflexivity.
  - right. reflexivity.
  - right. reflexivity.
Defined.

(** C5 as stated fails: a date written with a one-digit day and a
    one-digit month is accepted, and so is a day written after a blank
    and a date written with the decimal digits of another script. *)
Lemma Birthday_accepts_one_digit_day_and_month :
  Birthday (u "1.1.2024") = Ok (mkField (u "1.1.2024"))
  /\ List.length (u "1.1.2024") = 8%nat
  /\ strptime (u "1.1.2024") = Ok (mkdate 2024 1 1)
  /\ ddmmyyyy (mkdate 2024 1 1) <> u "1.1.2024"
  /\ strptime (u " 1.01.2024") = Ok (mkdate 2024 1 1)
  /\ Birthday (u " 1.01.2024") = Ok (mkField (u " 1.01.2024"))
  /\ strptime ([c1; 1635%N] ++ u ".01." ++ [1634; 1632; 1634; 1636]%N)
     = Ok (mkdate 2024 1 13)
  /\ Birthday ([c1; 1635%N] ++ u ".01." ++ [1634; 1632; 1634; 1636]%N)
     = Ok (mkField ([c1; 1635%N] ++ u ".01." ++ [1634; 1632; 1634; 1636]%N)).
Proof. repeat split. discriminate. Qed.

(** ** The loop of [get_upcoming_birthdays] *)

Section Loop.
Variable today : date.

Lemma candidate_exists_spec bd :
  candidate_exists today bd = true ->
  valid_dateb (mkdate (year today) (month bd) (day bd)) = true
  /\ valid_dateb (candidate_date today bd) = true.
Proof. unfold candidate_exists. now rewrite andb_true_iff. Qed.

(** The candidate is never before today. *)
Lemma candidate_not_before_today bd :
  valid_dateb today = true -> candidate_exists today bd = true ->
  0 <= days_between (candidate_date today bd) today.
Proof.
  intros Ht H. apply candidate_exists_spec in H. destruct H as [V0 V1].
  unfold days_between. unfold candidate_date in *.
  destruct (date_ltb (mkdate (year today) (month bd) (day bd)) today) eqn:L.
  - assert (T := Ht). apply valid_dateb_spec in T. destruct T as (_ & Hm & Hd).
    assert (A := day_of_year_bounds _ _ _ Hm Hd).
    assert (S := dby_succ (year today)).
    apply valid_dateb_spec in V1. simpl in V1. destruct V1 as (_ & Hm1 & Hd1).
    assert (B := day_of_year_bounds _ _ _ Hm1 Hd1).
    unfold toordinal, _ymd2ord. simpl. lia.
  - assert (O := date_ltb_toordinal _ _ V0 Ht). rewrite L in O.
    destruct (Z.lt_ge_cases
                (toordinal (mkdate (year today) (month bd) (day bd)))
                (toordinal today)) as [C|C]; [|lia].
    apply O in C. discriminate.
Qed.

(** Building the candidate as the code does gives [candidate_date]. *)
Lemma candidate_built bd :
  candidate_exists today bd = true ->
  (birthday_this_year <- replace_year bd (year today) ;;
   if date_ltb birthday_this_year today
   then replace_year birthday_this_year (year today + 1)
   else Ok birthday_this_year) = Ok (candidate_date today bd).
Proof.
  intros H. apply candidate_exists_spec in H. destruct H as [H0 H1].
  unfold replace_year. rewrite (date_new_ok _ _ _ H0). simpl.
  unfold candidate_date in *.
  destruct (date_ltb (mkdate (year today) (month bd) (day bd)) today).
  - simpl. now apply date_new_ok.
  - reflexivity.
Qed.

Lemma entry_after_candidate r c :
  valid_dateb c = true ->
  (if (0 <=? days_between c today) && (days_between c today <=? 7) then
     birthday_this_year <-
       (if 5 <=? weekday c then date_add_days c (7 - weekday c) else Ok c) ;;
     Ok (Some (mkentry (value (Record_.name r))
                       (strftime birthday_this_year)))
   else Ok None)
  = Ok (if (0 <=? days_between c today) && (days_between c today <=? 7)
        then Some (mkentry (record_name r) (strftime (effective_date c)))
        else None).
Proof.
  intros Hv.
  destruct ((0 <=? days_between c today) && (days_between c today <=? 7));
    [|reflexivity].
  unfold effective_date, date_add_days, record_name.
  destruct (Z.leb_spec 5 (weekday c)) as [Hw|Hw]; [|reflexivity].
  assert (R := weekend_shift_in_range c Hv Hw).
  replace (0 <? toordinal c + (7 - weekday c)) with true
    by (symmetry; apply Z.ltb_lt; lia).
  replace (toordinal c + (7 - weekday c) <=? _MAXORDINAL) with true
    by (symmetry; apply Z.leb_le; lia).
  reflexivity.
Qed.

Lemma upcoming_entry_ok r :
  has_candidate today r = true ->
  AddressBook.upcoming_entry today r = Ok (entry_of today r).
Proof.
  unfold has_candidate, AddressBook.upcoming_entry, entry_of.
  destruct (Record_.birthday r) as [b|]; [|reflexivity].
  destruct (strptime (value b)) as [bd|e]; [|discriminate].
  intros H. cbn [bind].
  assert (B := candidate_built bd H). cbn [bind] in B.
  destruct (replace_year bd (year today)) as [c0|e0]; [|discriminate].
  cbn [bind] in *.
  destruct (if date_ltb c0 today then replace_year c0 (year today + 1)
            else Ok c0) as [c|e1]; [|discriminate].
  injection B as ->. cbn [bind].
  apply candidate_exists_spec in H. destruct H as [_ Hv].
  apply entry_after_candidate, Hv.
Qed.

Lemma upcoming_loop_ok rs acc :
  forallb (has_candidate today) rs = true ->
  AddressBook.upcoming_loop today rs acc
  = Ok (acc ++ flat_map (entries_of today) rs).
Proof.
  revert acc. induction rs as [|r rs IH]; simpl; intros acc H.
  - now rewrite app_nil_r.
  - apply andb_true_iff in H. destruct H as [Hr Hrs].
    rewrite (upcoming_entry_ok _ Hr). simpl. rewrite (IH _ Hrs).
    unfold entries_of. destruct (entry_of today r); simpl.
    + now rewrite <- app_assoc.
    + reflexivity.
Qed.

Lemma upcoming_loop_raises rs acc r e :
  In r rs -> AddressBook.upcoming_entry today r = Raise e ->
  exists e', AddressBook.upcoming_loop today rs acc = Raise e'.
Proof.
  revert acc. induction rs as [|r0 rs IH]; simpl; intros acc [].
  - subst r0. intros ->. simpl. eauto.
  - intros He. destruct (AddressBook.upcoming_entry today r0); simpl; eauto.
Qed.

(** The query returns a list exactly when no step of the loop raises. *)
Lemma upcoming_loop_returns rs acc l :
  AddressBook.upcoming_loop today rs acc = Ok l ->
  forall r, In r rs -> exists o, AddressBook.upcoming_entry today r = Ok o.
Proof.
  intros H r Hr.
  destruct (AddressBook.upcoming_entry today r) as [o|e] eqn:E; [eauto|].
  destruct (upcoming_loop_raises rs acc r e Hr E) as [e' He'].
  congruence.
Qed.

Lemma entry_of_name r e :
  entry_of today r = Some e -> entry_name e = record_name r.
Proof.
  unfold entry_of. destruct (Record_.birthday r); [|discriminate].
  destruct (strptime (value f)); [|discriminate].
  destruct (_ && _); [|discriminate]. now intros [= <-].
Qed.

(** In a book with pairwise different names, the entries of the result
    that bear the name of a record are the ones the loop made for it. *)
Lemma entries_of_record rs r e :
  NoDup (map record_name rs) -> In r rs ->
  (In e (flat_map (entries_of today) rs) /\ entry_name e = record_name r
   <-> entry_of today r = Some e).
Proof.
  intros Hnd Hr. split.
  - intros [Hin Hname]. apply in_flat_map in Hin.
    destruct Hin as (r' & Hr' & He). unfold entries_of in He.
    destruct (entry_of today r') as [e'|] eqn:E; [|destruct He].
    destruct He as [->|[]].
    assert (r' = r); [|congruence].
    apply (NoDup_map_inj record_name rs); auto.
    apply entry_of_name in E. congruence.
  - intros E. split; [|now apply entry_of_name in E].
    apply in_flat_map. exists r. split; [assumption|].
    unfold entries_of. rewrite E. now left.
Qed.

Lemma upcoming_entry_raises r :
  has_candidate today r = false ->
  exists e, AddressBook.upcoming_entry today r = Raise e.
Proof.
  unfold has_candidate, AddressBook.upcoming_entry.
  destruct (Record_.birthday r) as [b|]; [|discriminate].
  destruct (strptime (value b)) as [bd|e]; [|eexists; reflexivity].
  unfold candidate_exists, candidate_date, replace_year. cbn [bind].
  destruct (valid_dateb (mkdate (year today) (month bd) (day bd))) eqn:V0.
  - rewrite (date_new_ok _ _ _ V0). cbn [bind year month day andb].
    destruct (date_ltb (mkdate (year today) (month bd) (day bd)) today).
    + intros V1. destruct (date_new_raises _ _ _ V1) as [msg ->]. simpl.
      eexists; reflexivity.
    + congruence.
  - intros _. destruct (date_new_raises _ _ _ V0) as [msg ->]. simpl.
    eexists; reflexivity.
Qed.

(** The query returns a list exactly when every birthday of the book has
    a candidate date. *)
Lemma query_returns_iff (book : AddressBook.t) :
  (exists l, AddressBook.get_upcoming_birthdays today book = Ok l)
  <-> forallb (has_candidate today) (dict_values book) = true.
Proof.
  split.
  - intros [l H]. apply forallb_forall. intros r Hr.
    destruct (has_candidate today r) eqn:E; [reflexivity|].
    destruct (upcoming_entry_raises _ E) as [e He].
    destruct (upcoming_loop_returns _ _ _ H r Hr) as [o Ho]. congruence.
  - intros H. eexists. apply (upcoming_loop_ok _ [] H).
Qed.

End Loop.

(** ** The upcoming-birthday query *)

(** C9: a record whose birthday is 29 February makes the query raise when
    the year of today is not a leap year: putting that year into the
    birthday raises [ValueError], which leaves the loop and the query. *)
Theorem leap_day_birthday_aborts_query
  (today : date) (book : AddressBook.t) (r : Record_.t) (b : Field) (y : Z) :
  In r (dict_values book) ->
  Record_.birthday r = Some b ->
  strptime (value b) = Ok (mkdate y 2 29) ->
  _is_leap (year today) = false ->
  _is_leap y = true
  /\ (exists msg,
        replace_year (mkdate y 2 29) (year today) = Raise (ValueError msg))
  /\ (exists msg,
        AddressBook.upcoming_entry today r = Raise (ValueError msg))
  /\ (exists e, AddressBook.get_upcoming_birthdays today book = Raise e).
Proof.
  intros Hr Hb Hs Hl.
  assert (Hy : _is_leap y = true).
  { apply strptime_valid, valid_dateb_spec in Hs. simpl in Hs.
    unfold _days_in_month in Hs. destruct (_is_leap y); [reflexivity|].
    simpl in Hs. lia. }
  assert (Hrep : exists msg,
             replace_year (mkdate y 2 29) (year today)
             = Raise (ValueError msg)).
  { apply date_new_raises. unfold valid_dateb, _days_in_month. simpl.
    rewrite Hl. simpl. now rewrite !andb_false_r. }
  assert (Hent : exists msg,
             AddressBook.upcoming_entry today r = Raise (ValueError msg)).
  { destruct Hrep as [msg Hrep]. exists msg.
    unfold AddressBook.upcoming_entry. rewrite Hb, Hs. cbn [bind].
    now rewrite Hrep. }
  repeat split; auto.
  destruct Hent as [msg Hent].
  apply (upcoming_loop_raises today (dict_values book) [] r _ Hr Hent).
Qed.

Lemma leap_day_birthday_aborts_query_witness :
  _is_leap 2000 = true
  /\ (exists msg,
        replace_year (mkdate 2000 2 29) (year (mkdate 2027 6 10))
        = Raise (ValueError msg))
  /\ (exists msg,
        AddressBook.upcoming_entry (mkdate 2027 6 10)
          (snd (contact "Bob" "2222222222" "29.02.2000"))
        = Raise (ValueError msg))
  /\ (exists e,
        AddressBook.get_upcoming_birthdays (mkdate 2027 6 10) book_leap_day
        = Raise e).
Proof.
  apply (leap_day_birthday_aborts_query (mkdate 2027 6 10) book_leap_day
           (snd (contact "Bob" "2222222222" "29.02.2000"))
           (mkField (u "29.02.2000")) 2000).
  - simpl. auto.
  - reflexivity.
  - reflexivity.
  - reflexivity.
Defined.

(** C1, at an input where it fails.  The book is the one the commands
    build for Ann, born on 12.06.2000, and Bob, born on 29.02.2000.  On
    10.06.2027 the candidate of Ann is 12.06.2027, 2 days after today, and
    the step of the loop for her record gives her entry; but the step for
    the record of Bob raises, the year 2027 having no 29 February, so the
    query raises and lists nobody, and [birthdays] answers with the text
    of the error. *)
Theorem query_aborts_beside_record_in_window :
  snd (add_birthday [u "Bob"; u "29.02.2000"]
         (snd (add_contact [u "Bob"; u "2222222222"]
                 (snd (add_birthday [u "Ann"; u "12.06.2000"]
                         (snd (add_contact [u "Ann"; u "1111111111"]
                                 AddressBook.init)))))))
  = book_leap_day
  /\ book_wfb book_leap_day = true
  /\ AddressBook.find (u "Ann") book_leap_day
     = Some (snd (contact "Ann" "1111111111" "12.06.2000"))
  /\ strptime (u "12.06.2000") = Ok (mkdate 2000 6 12)
  /\ candidate_date (mkdate 2027 6 10) (mkdate 2000 6 12) = mkdate 2027 6 12
  /\ days_between (mkdate 2027 6 12) (mkdate 2027 6 10) = 2
  /\ AddressBook.upcoming_entry (mkdate 2027 6 10)
       (snd (contact "Ann" "1111111111" "12.06.2000"))
     = Ok (Some (mkentry (u "Ann") (u "14.06.2027")))
  /\ AddressBook.upcoming_entry (mkdate 2027 6 10)
       (snd (contact "Bob" "2222222222" "29.02.2000"))
     = Raise (ValueError (u "day is out of range for month"))
  /\ AddressBook.get_upcoming_birthdays (mkdate 2027 6 10) book_leap_day
     = Raise (ValueError (u "day is out of range for month"))
  /\ birthdays (mkdate 2027 6 10) book_leap_day
     = (u "day is out of range for month", book_leap_day).
Proof. repeat split. Qed.

Lemma weekday_range d : 0 <= weekday d <= 6.
Proof. unfold weekday. Z.div_mod_to_equations. lia. Qed.

(** The reported date of a candidate that exists: itself on a working
    day, and on Saturday or Sunday the Monday that follows. *)
Lemma effective_date_spec c :
  valid_dateb c = true ->
  valid_dateb (effective_date c) = true
  /\ (weekday c < 5 -> effective_date c = c)
  /\ (5 <= weekday c ->
      effective_date c = fromordinal (toordinal c + (7 - weekday c))
      /\ toordinal (effective_date c) = toordinal c + (7 - weekday c)
      /\ weekday (effective_date c) = 0).
Proof.
  intros Hv. unfold effective_date.
  destruct (Z.leb_spec 5 (weekday c)) as [Hw|Hw].
  - assert (R := weekend_shift_in_range c Hv Hw).
    destruct (fromordinal_toordinal _ R) as [V T].
    split; [assumption|]. split; [lia|]. intros _.
    split; [reflexivity|]. split; [assumption|].
    unfold weekday at 1. rewrite T. unfold weekday in *.
    Z.div_mod_to_equations. lia.
  - split; [assumption|]. split; [reflexivity|]. lia.
Qed.

(** C2: a record whose candidate is 0 to 7 days after today is listed
    with the candidate itself when that is a working day, and with the
    Monday after it, 7 - weekday days later, when it is a Saturday (5) or
    a Sunday (6); it is listed whatever the distance of the reported date
    from today, the window being tested on the candidate. *)
Theorem weekend_candidate_reported_on_monday :
  (forall (today : date) (book : AddressBook.t),
     book_wfb book = true ->
     forallb (has_candidate today) (dict_values book) = true ->
     exists l,
       AddressBook.get_upcoming_birthdays today book = Ok l
       /\ forall r b bd,
            In r (dict_values book) -> Record_.birthday r = Some b ->
            strptime (value b) = Ok bd ->
            0 <= days_between (candidate_date today bd) today <= 7 ->
            exists eff,
              In (mkentry (record_name r) (strftime eff)) l
              /\ (forall e, In (mkentry (record_name r) e) l ->
                            e = strftime eff)
              /\ valid_dateb eff = true
              /\ (weekday (candidate_date today bd) < 5 ->
                  eff = candidate_date today bd)
              /\ (5 <= weekday (candidate_date today bd) ->
                  eff = fromordinal
                          (toordinal (candidate_date today bd)
                           + (7 - weekday (candidate_date today bd)))
                  /\ days_between eff (candidate_date today bd)
                     = 7 - weekday (candidate_date today bd)
                  /\ weekday eff = 0))
  /\ weekday (mkdate 2024 6 15) = 5
  /\ effective_date (mkdate 2024 6 15) = mkdate 2024 6 17
  /\ effective_date (mkdate 2024 6 12) = mkdate 2024 6 12
  /\ AddressBook.get_upcoming_birthdays (mkdate 2024 6 10) book_june
     = Ok [mkentry (u "Ann") (u "12.06.2024");
           mkentry (u "Bob") (u "17.06.2024");
           mkentry (u "Eve") (u "17.06.2024")]
  /\ days_between (mkdate 2024 6 16) (mkdate 2024 6 9) = 7
  /\ days_between (effective_date (mkdate 2024 6 16)) (mkdate 2024 6 9) = 8
  /\ AddressBook.get_upcoming_birthdays (mkdate 2024 6 9) book_june
     = Ok [mkentry (u "Ann") (u "12.06.2024");
           mkentry (u "Bob") (u "17.06.2024");
           mkentry (u "Eve") (u "17.06.2024")].
Proof.
  split; [|repeat split].
  intros today book Hwf Hc.
  exists (flat_map (entries_of today) (dict_values book)).
  split; [apply (upcoming_loop_ok today _ [] Hc)|].
  intros r b bd Hr Hb Hs [H0 H7].
  assert (Hcr := proj1 (forallb_forall _ _) Hc r Hr).
  unfold has_candidate in Hcr. rewrite Hb, Hs in Hcr.
  apply candidate_exists_spec in Hcr. destruct Hcr as [_ Hv].
  assert (Hnd := book_wfb_names book Hwf).
  set (c := candidate_date today bd) in *.
  assert (E : entry_of today r
              = Some (mkentry (record_name r) (strftime (effective_date c)))).
  { unfold entry_of. rewrite Hb, Hs. fold c.
    apply Z.leb_le in H0, H7. now rewrite H0, H7. }
  destruct (effective_date_spec c Hv) as (V & Hwork & Hend).
  exists (effective_date c). split.
  { apply (entries_of_record today _ r _ Hnd Hr). exact E. }
  split.
  { intros e He.
    assert (H := proj1 (entries_of_record today _ r _ Hnd Hr)
                   (conj He eq_refl)).
    rewrite E in H. now injection H as <-. }
  split; [assumption|]. split; [assumption|].
  intros Hw. destruct (Hend Hw) as (F & T & W).
  unfold days_between. split; [assumption|]. split; [lia|assumption].
Qed.

Lemma weekend_candidate_reported_on_monday_witness :
  exists l,
    AddressBook.get_upcoming_birthdays (mkdate 2024 6 10) book_june = Ok l
    /\ forall r b bd,
         In r (dict_values book_june) -> Record_.birthday r = Some b ->
         strptime (value b) = Ok bd ->
         0 <= days_between (candidate_date (mkdate 2024 6 10) bd)
                (mkdate 2024 6 10) <= 7 ->
         exists eff,
           In (mkentry (record_name r) (strftime eff)) l
           /\ (forall e, In (mkentry (record_name r) e) l ->
                         e = strftime eff)
           /\ valid_dateb eff = true
           /\ (weekday (candidate_date (mkdate 2024 6 10) bd) < 5 ->
               eff = candidate_date (mkdate 2024 6 10) bd)
           /\ (5 <= weekday (candidate_date (mkdate 2024 6 10) bd) ->
               eff = fromordinal
                       (toordinal (candidate_date (mkdate 2024 6 10) bd)
                        + (7 - weekday (candidate_date (mkdate 2024 6 10) bd)))
               /\ days_between eff (candidate_date (mkdate 2024 6 10) bd)
                  = 7 - weekday (candidate_date (mkdate 2024 6 10) bd)
               /\ weekday eff = 0).
Proof.
  apply (proj1 weekend_candidate_reported_on_monday
           (mkdate 2024 6 10) book_june).
  - reflexivity.
  - reflexivity.
Defined.

(** * Further properties *)

(** ** The phones of a record *)

Lemma find_phone_some (q : str) (ps : list Field) (p : Field) :
  find (fun p => str_eqb (value p) q) ps = Some p -> In p ps /\ value p = q.
Proof.
  intros H. apply find_some in H. destruct H as [Hin Hv].
  now apply str_eqb_eq in Hv.
Qed.

Lemma find_phone_none (q : str) (ps : list Field) :
  find (fun p => str_eqb (value p) q) ps = None <->
  (forall p, In p ps -> value p <> q).
Proof.
  split.
  - intros H p Hp. apply (find_none _ _ H) in Hp. now apply str_eqb_neq.
  - intros H. induction ps as [|p ps IH]; simpl; [reflexivity|].
    destruct (str_eqb (value p) q) eqn:E.
    + apply str_eqb_eq in E. exfalso. apply (H p); simpl; auto.
    + apply IH. intros x Hx. apply H. simpl. auto.
Qed.

Lemma find_phone_filter (phone q : str) (ps : list Field) :
  q <> phone ->
  find (fun p => str_eqb (value p) q)
    (filter (fun p => negb (str_eqb (value p) phone)) ps)
  = find (fun p => str_eqb (value p) q) ps.
Proof.
  intros Hq. induction ps as [|p ps IH]; simpl; [reflexivity|].
  destruct (str_eqb (value p) phone) eqn:E; simpl.
  - apply str_eqb_eq in E.
    replace (str_eqb (value p) q) with false; [assumption|].
    symmetry. apply str_eqb_neq. congruence.
  - now rewrite IH.
Qed.

Lemma filter_id {A} (f : A -> bool) (l : list A) :
  (forall x, In x l -> f x = true) -> filter f l = l.
Proof.
  induction l as [|a l IH]; simpl; intros H; [reflexivity|].
  rewrite (H a) by auto. f_equal. apply IH. auto.
Qed.

Lemma set_phones_same (r : Record_.t) : Record_.set_phones r (Record_.phones r) = r.
Proof. now destruct r. Qed.

(** X1: [remove_phone] takes away every phone with the given value and
    nothing else. *)
Theorem remove_phone_removes_every_match (phone : str) (r : Record_.t) :
  Record_.find_phone phone (Record_.remove_phone phone r) = None
  /\ (forall q, q <> phone ->
        Record_.find_phone q (Record_.remove_phone phone r)
        = Record_.find_phone q r)
  /\ (Record_.find_phone phone r = None -> Record_.remove_phone phone r = r)
  /\ Record_.remove_phone phone (Record_.remove_phone phone r)
     = Record_.remove_phone phone r
  /\ Record_.name (Record_.remove_phone phone r) = Record_.name r
  /\ Record_.email (Record_.remove_phone phone r) = Record_.email r
  /\ Record_.birthday (Record_.remove_phone phone r) = Record_.birthday r.
Proof.
  unfold Record_.find_phone, Record_.remove_phone. simpl.
  split.
  { apply find_phone_none. intros p Hp. apply filter_In in Hp.
    destruct Hp as [_ Hp]. apply negb_true_iff in Hp. now apply str_eqb_neq. }
  split; [intros q Hq; now apply find_phone_filter|].
  split.
  { intros H. rewrite filter_id; [apply set_phones_same|].
    intros p Hp. apply negb_true_iff, str_eqb_neq.
    now apply (proj1 (find_phone_none _ _) H). }
  split; [|auto].
  unfold Record_.set_phones. simpl. f_equal.
  apply filter_id. intros p Hp. apply filter_In in Hp. tauto.
Qed.

Lemma find_phone_app (q : str) (ps : list Field) (p : Field) :
  find (fun p => str_eqb (value p) q) (ps ++ [p])
  = match find (fun p => str_eqb (value p) q) ps with
    | Some x => Some x
    | None => if str_eqb (value p) q then Some p else None
    end.
Proof.
  induction ps as [|a ps IH]; simpl; [reflexivity|].
  destruct (str_eqb (value a) q); [reflexivity|assumption].
Qed.

(** X2: a phone that [add_phone] accepts is valid, goes last, and is
    then found by [find_phone]; the phones that were there stay. *)
Theorem add_phone_then_find_phone (phone : str) (r r' : Record_.t) :
  Record_.add_phone phone r = Ok r' ->
  isdigit phone = true /\ List.length phone = 10%nat
  /\ Record_.phones r' = Record_.phones r ++ [mkField phone]
  /\ (exists p, Record_.find_phone phone r' = Some p /\ value p = phone)
  /\ (forall q, q <> phone ->
        Record_.find_phone q r' = Record_.find_phone q r)
  /\ Record_.name r' = Record_.name r
  /\ Record_.email r' = Record_.email r
  /\ Record_.birthday r' = Record_.birthday r.
Proof.
  unfold Record_.add_phone, Phone.
  destruct (isdigit phone); simpl; [|discriminate].
  destruct (Nat.eqb_spec (List.length phone) 10); simpl; [|discriminate].
  intros [= <-]. simpl. unfold Record_.find_phone. simpl.
  split; [reflexivity|]. split; [assumption|]. split; [reflexivity|]. split.
  - rewrite find_phone_app.
    destruct (find _ (Record_.phones r)) as [x|] eqn:F.
    + exists x. split; [reflexivity|]. now apply find_phone_some in F.
    + simpl. rewrite str_eqb_refl. eauto.
  - split; [|auto]. intros q Hq. rewrite find_phone_app. simpl.
    replace (str_eqb phone q) with false
      by (symmetry; apply str_eqb_neq; congruence).
    now destruct (find _ (Record_.phones r)).
Qed.

Lemma add_phone_then_find_phone_witness :
  isdigit (u "2222222222") = true /\ List.length (u "2222222222") = 10%nat
  /\ Record_.phones
       (Record_.set_phones ann_one_phone
          [mkField (u "1111111111"); mkField (u "2222222222")])
     = Record_.phones ann_one_phone ++ [mkField (u "2222222222")]
  /\ (exists p,
        Record_.find_phone (u "2222222222")
          (Record_.set_phones ann_one_phone
             [mkField (u "1111111111"); mkField (u "2222222222")]) = Some p
        /\ value p = u "2222222222")
  /\ (forall q, q <> u "2222222222" ->
        Record_.find_phone q
          (Record_.set_phones ann_one_phone
             [mkField (u "1111111111"); mkField (u "2222222222")])
        = Record_.find_phone q ann_one_phone)
  /\ Record_.name
       (Record_.set_phones ann_one_phone
          [mkField (u "1111111111"); mkField (u "2222222222")])
     = Record_.name ann_one_phone
  /\ Record_.email
       (Record_.set_phones ann_one_phone
          [mkField (u "1111111111"); mkField (u "2222222222")])
     = Record_.email ann_one_phone
  /\ Record_.birthday
       (Record_.set_phones ann_one_phone
          [mkField (u "1111111111"); mkField (u "2222222222")])
     = Record_.birthday ann_one_phone.
Proof.
  apply (add_phone_then_find_phone (u "2222222222") ann_one_phone).
  reflexivity.
Defined.

(** X3: [edit_phone] succeeds exactly when some phone has the old value;
    it then rewrites the first such phone and no other, so the number of
    phones stays and the new value is found afterwards. *)
Theorem edit_phone_rewrites_first_match (old new : str) (r : Record_.t) :
  (Record_.find_phone old r = None ->
   Record_.edit_phone old new r
   = Raise (ValueError (u "Phone number not found.")))
  /\ (forall p, Record_.find_phone old r = Some p ->
      exists before after r',
        Record_.edit_phone old new r = Ok r'
        /\ Record_.phones r = before ++ p :: after
        /\ (forall q, In q before -> value q <> old)
        /\ Record_.phones r' = before ++ mkField new :: after
        /\ List.length (Record_.phones r') = List.length (Record_.phones r)
        /\ (exists x, Record_.find_phone new r' = Some x /\ value x = new)
        /\ Record_.name r' = Record_.name r
        /\ Record_.email r' = Record_.email r
        /\ Record_.birthday r' = Record_.birthday r).
Proof.
  unfold Record_.find_phone. split.
  - intros H. apply edit_phone_spec. now apply find_phone_none.
  - intros p Hp.
    assert (exists before after,
              Record_.phones r = before ++ p :: after
              /\ forall q, In q before -> value q <> old)
      as (b & a & Hps & Hb).
    { clear - Hp. induction (Record_.phones r) as [|x ps IH]; simpl in Hp;
        [discriminate|].
      destruct (str_eqb (value x) old) eqn:E.
      - injection Hp as ->. exists [], ps. split; [reflexivity|intros q []].
      - destruct (IH Hp) as (b & a & -> & Hb). exists (x :: b), a.
        split; [reflexivity|]. intros q [<-|Hq]; [|auto].
        now apply str_eqb_neq. }
    apply find_phone_some in Hp. destruct Hp as [_ Hv].
    exists b, a, (Record_.set_phones r (b ++ mkField new :: a)).
    split; [now apply (proj2 (edit_phone_spec old new r) b p a)|].
    split; [assumption|]. split; [assumption|]. simpl.
    split; [reflexivity|].
    split; [rewrite Hps, !length_app; reflexivity|].
    split; [|auto].
    destruct (find (fun p => str_eqb (value p) new) (b ++ mkField new :: a))
      as [x|] eqn:F.
    + exists x. split; [reflexivity|]. now apply find_phone_some in F.
    + exfalso. apply (proj1 (find_phone_none _ _) F (mkField new)); [|reflexivity].
      apply in_or_app. right. now left.
Qed.

(** ** Records in the book *)

Lemma dict_get_none_keys {V} (k : str) (d : dict V) :
  dict_get k d = None <-> (forall kv, In kv d -> fst kv <> k).
Proof.
  induction d as [|[k' v] d IH]; simpl.
  - split; [intros _ kv []|reflexivity].
  - destruct (str_eqb k' k) eqn:E.
    + apply str_eqb_eq in E. split; [discriminate|].
      intros H. exfalso. apply (H (k', v)); auto.
    + apply str_eqb_neq in E. rewrite IH. split.
      * intros H kv [<-|Hkv]; auto.
      * intros H kv Hkv. apply H. auto.
Qed.

Lemma dict_set_absent {V} (k : str) (v : V) (d : dict V) :
  dict_get k d = None -> dict_set k v d = d ++ [(k, v)].
Proof.
  induction d as [|[k' v'] d IH]; simpl; [reflexivity|].
  destruct (str_eqb k' k); [discriminate|]. intros H. now rewrite IH.
Qed.

Lemma dict_get_filter_other {V} (k nm : str) (d : dict V) :
  k <> nm ->
  dict_get k (filter (fun kv => negb (str_eqb (fst kv) nm)) d) = dict_get k d.
Proof.
  intros Hk. induction d as [|[k' v] d IH]; simpl; [reflexivity|].
  destruct (str_eqb k' nm) eqn:E; simpl.
  - apply str_eqb_eq in E. subst k'.
    replace (str_eqb nm k) with false; [assumption|].
    symmetry. apply str_eqb_neq. congruence.
  - now rewrite IH.
Qed.

(** X4: after [add_record] the record is found under its name, every
    other name finds what it found before, and the order of the book is
    kept: a name the book has stays in place, a new one goes last. *)
Theorem add_record_then_find (r : Record_.t) (book : AddressBook.t) :
  AddressBook.find (record_name r) (AddressBook.add_record r book) = Some r
  /\ (forall k, k <> record_name r ->
        AddressBook.find k (AddressBook.add_record r book)
        = AddressBook.find k book)
  /\ map fst (AddressBook.add_record r book)
     = (if dict_contains (record_name r) book then map fst book
        else map fst book ++ [record_name r]).
Proof.
  unfold AddressBook.find, AddressBook.add_record. fold (record_name r).
  split; [apply dict_get_set_same|].
  split; [intros k Hk; now apply dict_get_set_other|].
  destruct (dict_contains (record_name r) book) eqn:E.
  - now apply dict_set_keys.
  - now apply dict_set_keys_new.
Qed.

(** X5: [delete] takes away the record of the given name only; the
    other records and their order stay, and the book is left as it is
    when the name is not in it. *)
Theorem delete_keeps_other_records (nm : str) (book : AddressBook.t) :
  exists book',
    AddressBook.delete nm book = Ok book'
    /\ (forall k, k <> nm ->
          AddressBook.find k book' = AddressBook.find k book)
    /\ map fst book' = filter (fun k => negb (str_eqb k nm)) (map fst book)
    /\ (AddressBook.find nm book = None -> book' = book).
Proof.
  unfold AddressBook.delete, AddressBook.find, dict_del.
  assert (K : forall d : AddressBook.t,
            map fst (filter (fun kv => negb (str_eqb (fst kv) nm)) d)
            = filter (fun k => negb (str_eqb k nm)) (map fst d)).
  { induction d as [|[k v] d IH]; simpl; [reflexivity|].
    destruct (str_eqb k nm); simpl; now rewrite IH. }
  destruct (dict_contains nm book) eqn:E.
  - eexists. split; [reflexivity|].
    split; [intros k Hk; now apply dict_get_filter_other|].
    split; [apply K|].
    unfold dict_contains in E. intros H. now rewrite H in E.
  - exists book. split; [reflexivity|]. split; [reflexivity|].
    split; [|reflexivity].
    rewrite <- K. symmetry. f_equal. apply filter_id.
    intros kv Hkv. apply negb_true_iff, str_eqb_neq.
    unfold dict_contains in E.
    destruct (dict_get nm book) eqn:G; [discriminate|].
    now apply (proj1 (dict_get_none_keys _ _) G).
Qed.

(** X6: adding a record under a name the book does not have and then
    deleting that name gives the book back. *)
Theorem add_record_then_delete (r : Record_.t) (book : AddressBook.t) :
  AddressBook.find (record_name r) book = None ->
  AddressBook.delete (record_name r) (AddressBook.add_record r book)
  = Ok book.
Proof.
  unfold AddressBook.find, AddressBook.delete, AddressBook.add_record, dict_del.
  fold (record_name r). intros H.
  unfold dict_contains. rewrite dict_get_set_same.
  rewrite (dict_set_absent _ _ _ H), filter_app. simpl.
  rewrite str_eqb_refl. simpl. rewrite app_nil_r. apply f_equal.
  apply filter_id. intros kv Hkv. apply negb_true_iff, str_eqb_neq.
  now apply (proj1 (dict_get_none_keys _ _) H).
Qed.

Lemma add_record_then_delete_witness :
  AddressBook.delete (record_name ann_one_phone)
    (AddressBook.add_record ann_one_phone book_bob)
  = Ok book_bob.
Proof.
  apply (add_record_then_delete ann_one_phone book_bob).
  reflexivity.
Defined.

(** X7: the book keeps its invariant, keys pairwise different and every
    record under its own name: the empty book has it, and [add_record],
    [delete] and the three handlers that change the book keep it; so the
    record found under a name bears that name. *)
Theorem book_invariant_is_kept :
  book_wfb AddressBook.init = true
  /\ (forall book r,
        book_wfb book = true ->
        book_wfb (AddressBook.add_record r book) = true)
  /\ (forall book nm book',
        book_wfb book = true -> AddressBook.delete nm book = Ok book' ->
        book_wfb book' = true)
  /\ (forall book args,
        book_wfb book = true ->
        book_wfb (snd (add_contact args book)) = true
        /\ book_wfb (snd (change_contact args book)) = true
        /\ book_wfb (snd (add_birthday args book)) = true)
  /\ (forall book nm r,
        book_wfb book = true -> AddressBook.find nm book = Some r ->
        record_name r = nm).
Proof.
  split; [reflexivity|].
  split; [intros book r; apply book_wfb_add_record|].
  split; [intros book nm book'; apply book_wfb_delete|].
  split; [intros book args; apply book_wfb_handlers|].
  intros book nm r. apply find_name.
Qed.

(** ** More on the upcoming-birthday query *)

Lemma entries_of_names today r :
  map entry_name (entries_of today r)
  = if in_windowb today r then [record_name r] else [].
Proof.
  unfold entries_of, entry_of, in_windowb.
  destruct (Record_.birthday r) as [b|]; [|reflexivity].
  destruct (strptime (value b)) as [bd|]; [|reflexivity].
  now destruct (_ && _).
Qed.

(** X8: when the query returns, the names it lists are the names of the
    records whose candidate is 0 to 7 days after today, in the order of
    the book, each once; a record without birthday is not among them. *)
Theorem upcoming_names_follow_book_order
  (today : date) (book : AddressBook.t) :
  forallb (has_candidate today) (dict_values book) = true ->
  exists l,
    AddressBook.get_upcoming_birthdays today book = Ok l
    /\ map entry_name l
       = map record_name (filter (in_windowb today) (dict_values book))
    /\ (List.length l <= List.length book)%nat.
Proof.
  intros H. exists (flat_map (entries_of today) (dict_values book)).
  split; [apply (upcoming_loop_ok today _ [] H)|].
  assert (N : forall rs,
            map entry_name (flat_map (entries_of today) rs)
            = map record_name (filter (in_windowb today) rs)).
  { induction rs as [|r rs IH]; simpl; [reflexivity|].
    rewrite map_app, entries_of_names, IH.
    now destruct (in_windowb today r). }
  split; [apply N|].
  rewrite <- (length_map entry_name), N, length_map.
  unfold dict_values.
  rewrite <- (length_map snd book). apply filter_length_le.
Qed.

Lemma upcoming_names_follow_book_order_witness :
  exists l,
    AddressBook.get_upcoming_birthdays (mkdate 2024 6 10) book_june = Ok l
    /\ map entry_name l
       = map record_name
           (filter (in_windowb (mkdate 2024 6 10)) (dict_values book_june))
    /\ (List.length l <= List.length book_june)%nat.
Proof.
  apply (upcoming_names_follow_book_order (mkdate 2024 6 10) book_june).
  reflexivity.
Defined.

(** X25: when every birthday of the book has a candidate date, which is
    when the query returns at all, the list it returns has an entry for a
    record with a birthday exactly when the candidate of that birthday is
    0 to 7 days after today; with today 31.12.2024 the birthday 02.01.2000
    has the candidate 02.01.2025 and is listed. *)
Theorem upcoming_iff_candidate_in_window :
  (forall (today : date) (book : AddressBook.t),
     book_wfb book = true ->
     forallb (has_candidate today) (dict_values book) = true ->
     exists l,
       AddressBook.get_upcoming_birthdays today book = Ok l
       /\ forall r b,
            In r (dict_values book) -> Record_.birthday r = Some b ->
            exists bd,
              strptime (value b) = Ok bd
              /\ candidate_date today bd
                 = (if date_ltb (mkdate (year today) (month bd) (day bd)) today
                    then mkdate (year today + 1) (month bd) (day bd)
                    else mkdate (year today) (month bd) (day bd))
              /\ ((exists e, In (mkentry (record_name r) e) l)
                  <-> 0 <= days_between (candidate_date today bd) today <= 7))
  /\ (forall (today : date) (book : AddressBook.t),
        (exists l, AddressBook.get_upcoming_birthdays today book = Ok l)
        <-> forallb (has_candidate today) (dict_values book) = true)
  /\ candidate_date (mkdate 2024 12 31) (mkdate 2000 1 2) = mkdate 2025 1 2
  /\ days_between (mkdate 2025 1 2) (mkdate 2024 12 31) = 2
  /\ AddressBook.get_upcoming_birthdays (mkdate 2024 12 31) book_new_year
     = Ok [mkentry (u "Ann") (u "02.01.2025")].
Proof.
  split; [|split; [exact query_returns_iff|repeat split]].
  intros today book Hwf Hc.
  exists (flat_map (entries_of today) (dict_values book)).
  split; [apply (upcoming_loop_ok today _ [] Hc)|].
  intros r b Hr Hb.
  assert (Hcr := proj1 (forallb_forall _ _) Hc r Hr).
  unfold has_candidate in Hcr. rewrite Hb in Hcr.
  destruct (strptime (value b)) as [bd|] eqn:Hs; [|discriminate].
  exists bd. split; [reflexivity|]. split; [reflexivity|].
  assert (Hnd := book_wfb_names book Hwf).
  assert (E : entry_of today r
              = if (0 <=? days_between (candidate_date today bd) today)
                   && (days_between (candidate_date today bd) today <=? 7)
                then Some (mkentry (record_name r)
                             (strftime (effective_date
                                          (candidate_date today bd))))
                else None).
  { unfold entry_of. now rewrite Hb, Hs. }
  split.
  - intros [e He].
    assert (H := proj1 (entries_of_record today _ r _ Hnd Hr)
                   (conj He eq_refl)).
    rewrite E in H.
    destruct (Z.leb_spec 0 (days_between (candidate_date today bd) today));
      destruct (Z.leb_spec (days_between (candidate_date today bd) today) 7);
      simpl in H; try discriminate. lia.
  - intros [H0 H7].
    apply Z.leb_le in H0, H7. rewrite H0, H7 in E. simpl in E.
    eexists. apply (entries_of_record today _ r _ Hnd Hr). exact E.
Qed.

Lemma upcoming_iff_candidate_in_window_witness :
  exists l,
    AddressBook.get_upcoming_birthdays (mkdate 2024 6 10) book_june = Ok l
    /\ forall r b,
         In r (dict_values book_june) -> Record_.birthday r = Some b ->
         exists bd,
           strptime (value b) = Ok bd
           /\ candidate_date (mkdate 2024 6 10) bd
              = (if date_ltb (mkdate (year (mkdate 2024 6 10)) (month bd)
                                (day bd)) (mkdate 2024 6 10)
                 then mkdate (year (mkdate 2024 6 10) + 1) (month bd) (day bd)
                 else mkdate (year (mkdate 2024 6 10)) (month bd) (day bd))
           /\ ((exists e, In (mkentry (record_name r) e) l)
               <-> 0 <= days_between (candidate_date (mkdate 2024 6 10) bd)
                          (mkdate 2024 6 10) <= 7).
Proof.
  apply (proj1 upcoming_iff_candidate_in_window (mkdate 2024 6 10) book_june).
  - reflexivity.
  - reflexivity.
Defined.

Lemma dbm_next_year y m :
  _days_before_month (y + 1) m - _days_before_month y m
  <= (if _is_leap y then 0 else 1).
Proof.
  unfold _days_before_month.
  destruct (2 <? m), (_is_leap (y + 1)), (_is_leap y); simpl; lia.
Qed.

(** The candidate keeps the day and the month of the birthday, has the
    year of today or the next, and lies 0 to 365 days after today. *)
Lemma candidate_date_bounds (today bd : date) :
  valid_dateb today = true -> candidate_exists today bd = true ->
  0 <= days_between (candidate_date today bd) today <= 365
  /\ month (candidate_date today bd) = month bd
  /\ day (candidate_date today bd) = day bd
  /\ (year (candidate_date today bd) = year today
      \/ year (candidate_date today bd) = year today + 1).
Proof.
  intros Ht H.
  assert (L := candidate_not_before_today today bd Ht H).
  apply candidate_exists_spec in H. destruct H as [V0 V1].
  unfold days_between in *. unfold candidate_date in *.
  assert (T := Ht). apply valid_dateb_spec in T. destruct T as (_ & Hm & Hd).
  assert (A := day_of_year_bounds _ _ _ Hm Hd).
  destruct (date_ltb (mkdate (year today) (month bd) (day bd)) today) eqn:E;
    simpl.
  - split; [|auto].
    apply (date_ltb_toordinal _ _ V0 Ht) in E.
    assert (S := dby_succ (year today)).
    assert (N := dbm_next_year (year today) (month bd)).
    unfold toordinal, _ymd2ord in *. simpl in *.
    destruct (_is_leap (year today)); lia.
  - split; [|auto].
    apply valid_dateb_spec in V0. simpl in V0. destruct V0 as (_ & Hm0 & Hd0).
    assert (B := day_of_year_bounds _ _ _ Hm0 Hd0).
    unfold toordinal, _ymd2ord in *. simpl in *.
    destruct (_is_leap (year today)); lia.
Qed.

(** X9: when the step of the loop returns for a record whose birthday
    [strptime] reads, the two calls of [replace] have built a candidate
    that exists, keeps the day and the month of the birthday, has the
    year of today or the next one, and lies 0 to 365 days after today; the
    step leaves the record out exactly when the candidate is more than 7
    days after today, so the lower bound of the test never excludes a
    record. *)
Theorem candidate_is_within_a_year
  (today : date) (r : Record_.t) (b : Field) (bd : date) (o : option entry) :
  valid_dateb today = true ->
  Record_.birthday r = Some b -> strptime (value b) = Ok bd ->
  AddressBook.upcoming_entry today r = Ok o ->
  exists c,
    (birthday_this_year <- replace_year bd (year today) ;;
     if date_ltb birthday_this_year today
     then replace_year birthday_this_year (year today + 1)
     else Ok birthday_this_year) = Ok c
    /\ valid_dateb c = true
    /\ month c = month bd /\ day c = day bd
    /\ (year c = year today \/ year c = year today + 1)
    /\ 0 <= days_between c today <= 365
    /\ (o = None <-> 7 < days_between c today)
    /\ (days_between c today <= 7 ->
        o = Some (mkentry (value (Record_.name r))
                    (strftime (effective_date c)))).
Proof.
  intros Ht Hb Hs Ho.
  destruct (has_candidate today r) eqn:Hc.
  2:{ destruct (upcoming_entry_raises today r Hc) as [e He]. congruence. }
  rewrite (upcoming_entry_ok today r Hc) in Ho. injection Ho as <-.
  unfold has_candidate in Hc. rewrite Hb, Hs in Hc.
  exists (candidate_date today bd).
  split; [now apply candidate_built|].
  split; [now apply candidate_exists_spec in Hc|].
  destruct (candidate_date_bounds today bd Ht Hc) as (B & M & D & Y).
  do 4 (split; [assumption|]).
  unfold entry_of. rewrite Hb, Hs.
  replace (0 <=? days_between (candidate_date today bd) today) with true
    by (symmetry; apply Z.leb_le; lia).
  cbn [andb].
  destruct (Z.leb_spec (days_between (candidate_date today bd) today) 7).
  - split; [|reflexivity]. split; [discriminate|lia].
  - split; [|lia]. split; [intros _; assumption|intros _; reflexivity].
Qed.

Lemma candidate_is_within_a_year_witness :
  exists c,
    (birthday_this_year <-
       replace_year (mkdate 2000 1 2) (year (mkdate 2024 12 31)) ;;
     if date_ltb birthday_this_year (mkdate 2024 12 31)
     then replace_year birthday_this_year (year (mkdate 2024 12 31) + 1)
     else Ok birthday_this_year) = Ok c
    /\ valid_dateb c = true
    /\ month c = month (mkdate 2000 1 2) /\ day c = day (mkdate 2000 1 2)
    /\ (year c = year (mkdate 2024 12 31)
        \/ year c = year (mkdate 2024 12 31) + 1)
    /\ 0 <= days_between c (mkdate 2024 12 31) <= 365
    /\ (Some (mkentry (u "Ann") (u "02.01.2025")) = None
        <-> 7 < days_between c (mkdate 2024 12 31))
    /\ (days_between c (mkdate 2024 12 31) <= 7 ->
        Some (mkentry (u "Ann") (u "02.01.2025"))
        = Some (mkentry
                  (value (Record_.name
                            (snd (contact "Ann" "1111111111" "02.01.2000"))))
                  (strftime (effective_date c)))).
Proof.
  apply (candidate_is_within_a_year (mkdate 2024 12 31)
           (snd (contact "Ann" "1111111111" "02.01.2000"))
           (mkField (u "02.01.2000")) (mkdate 2000 1 2)
           (Some (mkentry (u "Ann") (u "02.01.2025"))));
    reflexivity.
Defined.

Lemma entries_of_reported today r e :
  has_candidate today r = true -> In e (entries_of today r) ->
  exists c,
    valid_dateb c = true
    /\ 0 <= days_between c today <= 7
    /\ e = mkentry (record_name r) (strftime (effective_date c)).
Proof.
  unfold has_candidate, entries_of, entry_of.
  destruct (Record_.birthday r) as [b|]; [|intros _ []].
  destruct (strptime (value b)) as [bd|]; [|discriminate].
  intros H. apply candidate_exists_spec in H. destruct H as [_ V].
  destruct (Z.leb_spec 0 (days_between (candidate_date today bd) today));
    [|intros []].
  destruct (Z.leb_spec (days_between (candidate_date today bd) today) 7);
    [|intros []].
  simpl. intros [<-|[]]. exists (candidate_date today bd). auto.
Qed.

(** A date that is not before another is not of an earlier year. *)
Lemma year_not_earlier a b :
  valid_dateb a = true -> valid_dateb b = true ->
  toordinal b <= toordinal a -> year b <= year a.
Proof.
  intros Va Vb H.
  destruct (Z.le_gt_cases (year b) (year a)) as [L|L]; [assumption|].
  assert (E : date_ltb a b = true).
  { unfold date_ltb. apply orb_true_iff. left. now apply Z.ltb_lt. }
  apply (date_ltb_toordinal _ _ Va Vb) in E. lia.
Qed.

(** X10: every date the query reports is a date that exists, a working
    day (Monday to Friday), and 0 to 9 days after today; from the year
    1000 on, when [strftime] writes the year on four digits, its text is
    one that [strptime] reads back as that date and [Birthday] accepts. *)
Theorem reported_dates_are_working_days
  (today : date) (book : AddressBook.t) :
  valid_dateb today = true ->
  forallb (has_candidate today) (dict_values book) = true ->
  exists l,
    AddressBook.get_upcoming_birthdays today book = Ok l
    /\ Forall (fun e =>
         exists r eff,
           In r (dict_values book)
           /\ entry_name e = record_name r
           /\ entry_birthday e = strftime eff
           /\ valid_dateb eff = true
           /\ 0 <= weekday eff <= 4
           /\ 0 <= days_between eff today <= 9
           /\ (1000 <= year today ->
               strptime (entry_birthday e) = Ok eff
               /\ Birthday (entry_birthday e)
                  = Ok (mkField (entry_birthday e))))
         l.
Proof.
  intros Ht H. exists (flat_map (entries_of today) (dict_values book)).
  split; [apply (upcoming_loop_ok today _ [] H)|].
  apply Forall_forall. intros e He. apply in_flat_map in He.
  destruct He as (r & Hr & He).
  assert (Hc := proj1 (forallb_forall _ _) H r Hr).
  destruct (entries_of_reported today r e Hc He) as (c & V & W & ->).
  destruct (effective_date_spec c V) as (VE & Hwork & Hend).
  exists r, (effective_date c). simpl.
  split; [assumption|]. do 2 (split; [reflexivity|]).
  split; [assumption|].
  assert (R := weekday_range c). unfold days_between in *.
  assert (B : 0 <= weekday (effective_date c) <= 4
              /\ 0 <= toordinal (effective_date c) - toordinal today <= 9).
  { destruct (Z.lt_ge_cases (weekday c) 5) as [Hw|Hw].
    - rewrite (Hwork Hw). lia.
    - destruct (Hend Hw) as (_ & T & M). rewrite T, M. lia. }
  destruct B as [B1 B2]. do 2 (split; [assumption|]).
  intros Hy.
  assert (Y := year_not_earlier _ _ VE Ht ltac:(lia)).
  assert (S := strptime_strftime _ VE ltac:(lia)).
  split; [assumption|]. unfold Birthday. now rewrite S.
Qed.

Lemma reported_dates_are_working_days_witness :
  exists l,
    AddressBook.get_upcoming_birthdays (mkdate 2024 6 9) book_june = Ok l
    /\ Forall (fun e =>
         exists r eff,
           In r (dict_values book_june)
           /\ entry_name e = record_name r
           /\ entry_birthday e = strftime eff
           /\ valid_dateb eff = true
           /\ 0 <= weekday eff <= 4
           /\ 0 <= days_between eff (mkdate 2024 6 9) <= 9
           /\ strptime (entry_birthday e) = Ok eff
           /\ Birthday (entry_birthday e) = Ok (mkField (entry_birthday e)))
         l.
Proof.
  destruct (reported_dates_are_working_days (mkdate 2024 6 9) book_june
              eq_refl eq_refl) as (l & Hl & HF).
  exists l. split; [exact Hl|].
  revert HF. apply Forall_impl.
  intros e (r & eff & H1 & H2 & H3 & H4 & H5 & H6 & H7).
  exists r, eff. repeat (split; [assumption|]).
  apply H7. simpl. lia.
Defined.

Lemma date_new_raise_ValueError y m d e :
  date_new y m d = Raise e -> exists msg, e = ValueError msg.
Proof.
  destruct (valid_dateb (mkdate y m d)) eqn:V.
  - now rewrite (date_new_ok _ _ _ V).
  - destruct (date_new_raises _ _ _ V) as [msg ->]. intros [= <-]. eauto.
Qed.

(** A step of the loop raises nothing but [ValueError]: the addition of
    days cannot leave the calendar. *)
Lemma upcoming_entry_raise_ValueError today r e :
  AddressBook.upcoming_entry today r = Raise e -> exists msg, e = ValueError msg.
Proof.
  unfold AddressBook.upcoming_entry.
  destruct (Record_.birthday r) as [b|]; [|discriminate].
  destruct (strptime (value b)) as [bd|e0] eqn:S; cbn [bind].
  2:{ intros [= <-]. now apply strptime_raises_ValueError in S. }
  unfold replace_year.
  destruct (date_new (year today) (month bd) (day bd)) as [c0|e0] eqn:D0;
    cbn [bind].
  2:{ intros [= <-]. now apply date_new_raise_ValueError in D0. }
  assert ((exists c, valid_dateb c = true
            /\ (if date_ltb c0 today
                then date_new (year today + 1) (month c0) (day c0)
                else Ok c0) = Ok c)
          \/ exists msg,
               (if date_ltb c0 today
                then date_new (year today + 1) (month c0) (day c0)
                else Ok c0) = Raise (ValueError msg)) as [(c & V & ->)|(msg & ->)].
  { destruct (date_ltb c0 today).
    - destruct (date_new (year today + 1) (month c0) (day c0)) as [c|e1] eqn:D1.
      + left. exists c. split; [|reflexivity]. now apply date_new_inv in D1.
      + right. apply date_new_raise_ValueError in D1. destruct D1 as [msg ->].
        eauto.
    - left. exists c0. split; [|reflexivity]. now apply date_new_inv in D0. }
  2:{ cbn [bind]. intros [= <-]. eauto. }
  cbn [bind]. rewrite (entry_after_candidate today r c V). discriminate.
Qed.

Lemma upcoming_loop_raise_inv today rs acc e :
  AddressBook.upcoming_loop today rs acc = Raise e ->
  exists r, In r rs /\ AddressBook.upcoming_entry today r = Raise e.
Proof.
  revert acc. induction rs as [|r rs IH]; simpl; [discriminate|].
  intros acc. destruct (AddressBook.upcoming_entry today r) as [o|e0] eqn:E;
    cbn [bind].
  - intros H. destruct (IH _ H) as (r' & Hr' & He). eauto.
  - intros [= <-]. eauto.
Qed.

(** X11: [birthdays] never lets the error of the query out: when the
    query raises, which it does with a [ValueError] only, the command
    answers with the text of that error; when the query lists nothing it
    answers that there are no upcoming birthdays; the book is left as it
    is in every case. *)
Theorem birthdays_answers (today : date) (book : AddressBook.t) :
  (forall e,
     AddressBook.get_upcoming_birthdays today book = Raise e ->
     exists msg, e = ValueError msg /\ birthdays today book = (msg, book))
  /\ (AddressBook.get_upcoming_birthdays today book = Ok [] ->
      birthdays today book
      = (u "No upcoming birthdays in the next week.", book))
  /\ snd (birthdays today book) = book
  /\ birthdays today AddressBook.init
     = (u "No upcoming birthdays in the next week.", AddressBook.init).
Proof.
  unfold birthdays, input_error, birthdays_body.
  split; [|split; [|split; [|reflexivity]]].
  - intros e H. rewrite H.
    apply upcoming_loop_raise_inv in H. destruct H as (r & _ & H).
    apply upcoming_entry_raise_ValueError in H. destruct H as [msg ->]. eauto.
  - intros ->. reflexivity.
  - destruct (AddressBook.get_upcoming_birthdays today book) as [[|e l]|[]];
      reflexivity.
Qed.

Lemma upcoming_entry_same today r r' :
  Record_.name r' = Record_.name r ->
  Record_.birthday r' = Record_.birthday r ->
  AddressBook.upcoming_entry today r' = AddressBook.upcoming_entry today r.
Proof. unfold AddressBook.upcoming_entry. now intros -> ->. Qed.

Lemma upcoming_loop_same today rs rs' acc :
  Forall2 (fun r r' =>
             AddressBook.upcoming_entry today r'
             = AddressBook.upcoming_entry today r) rs rs' ->
  AddressBook.upcoming_loop today rs' acc
  = AddressBook.upcoming_loop today rs acc.
Proof.
  intros H. revert acc. induction H as [|r r' rs rs' Hr _ IH]; simpl;
    [reflexivity|].
  intros acc. rewrite Hr.
  destruct (AddressBook.upcoming_entry today r); cbn [bind]; auto.
Qed.

Lemma upcoming_loop_last today rs r acc :
  AddressBook.upcoming_entry today r = Ok None ->
  AddressBook.upcoming_loop today (rs ++ [r]) acc
  = AddressBook.upcoming_loop today rs acc.
Proof.
  intros H. revert acc. induction rs as [|x rs IH]; simpl; intros acc.
  - now rewrite H.
  - destruct (AddressBook.upcoming_entry today x); cbn [bind]; auto.
Qed.

(** Storing, under a name the book has, a record with the same name and
    birthday as the one that is there does not change the listing. *)
Lemma query_after_store today (book : AddressBook.t) nm r r' :
  AddressBook.find nm book = Some r ->
  Record_.name r' = Record_.name r ->
  Record_.birthday r' = Record_.birthday r ->
  AddressBook.get_upcoming_birthdays today (store nm r' book)
  = AddressBook.get_upcoming_birthdays today book.
Proof.
  unfold AddressBook.get_upcoming_birthdays, AddressBook.find, store.
  intros F Hn Hb. apply upcoming_loop_same. unfold dict_values.
  induction book as [|[k v] book IH]; simpl in *; [discriminate|].
  destruct (str_eqb k nm); simpl.
  - injection F as ->. constructor; [now apply upcoming_entry_same|].
    clear. induction book; simpl; constructor; auto.
  - constructor; [reflexivity|]. now apply IH.
Qed.

(** X12: the commands that add or change phones never change what the
    query lists: it gives, or raises, the same before and after [add] and
    [change], whatever their arguments. *)
Theorem phone_commands_keep_the_listing
  (today : date) (args : list str) (book : AddressBook.t) :
  AddressBook.get_upcoming_birthdays today (snd (add_contact args book))
  = AddressBook.get_upcoming_birthdays today book
  /\ AddressBook.get_upcoming_birthdays today (snd (change_contact args book))
     = AddressBook.get_upcoming_birthdays today book.
Proof.
  split.
  - unfold add_contact, input_error, add_contact_body.
    destruct args as [|nm [|phone rest]]; try reflexivity.
    destruct (AddressBook.find nm book) as [r|] eqn:F.
    + destruct (truthy phone).
      * unfold Record_.add_phone.
        destruct (Phone phone) as [p|[]]; simpl; try reflexivity.
        apply (query_after_store today book nm r); [assumption| |];
          now destruct (truthy _).
      * simpl. apply (query_after_store today book nm r); [assumption| |];
          now destruct (truthy _).
    + assert (N : forall r0,
                record_name r0 = nm -> Record_.birthday r0 = None ->
                AddressBook.get_upcoming_birthdays today
                  (AddressBook.add_record r0 book)
                = AddressBook.get_upcoming_birthdays today book).
      { intros r0 Hn B.
        unfold AddressBook.get_upcoming_birthdays, AddressBook.add_record.
        fold (record_name r0). rewrite Hn.
        rewrite (dict_set_absent _ _ _ F). unfold dict_values.
        rewrite map_app. simpl. apply upcoming_loop_last.
        unfold AddressBook.upcoming_entry. now rewrite B. }
      unfold Record_.init. destruct (truthy phone).
      * unfold Record_.add_phone.
        destruct (Phone phone) as [p|[]]; simpl; try reflexivity.
        now apply N.
      * simpl. now apply N.
  - unfold change_contact, input_error, change_contact_body.
    destruct args as [|nm [|o [|n [|x rest]]]]; try reflexivity.
    destruct (AddressBook.find nm book) as [r|] eqn:F; [|reflexivity].
    unfold Record_.edit_phone.
    destruct (Record_.edit_loop _ _ _); simpl; [|reflexivity].
    now apply (query_after_store today book nm r).
Qed.

(** ** Birthdays on 29 February *)

(** A day of a month other than 29 February exists in every year. *)
Lemma day_exists_every_year y y' m d :
  1 <= y' <= 9999 ->
  valid_dateb (mkdate y m d) = true ->
  (month (mkdate y m d) =? 2) && (day (mkdate y m d) =? 29) = false ->
  valid_dateb (mkdate y' m d) = true.
Proof.
  intros Hy V N. apply valid_dateb_spec in V. simpl in *.
  destruct V as (_ & Hm & Hd). apply valid_dateb_spec. simpl.
  split; [assumption|]. split; [assumption|].
  unfold _days_in_month in *.
  destruct (Z.eqb_spec m 2) as [->|Hm2]; simpl in *.
  - destruct (Z.eqb_spec d 29); [discriminate|].
    destruct (_is_leap y), (_is_leap y'); simpl in *; lia.
  - assumption.
Qed.

(** X23: the query returns a list for every book whose birthdays are
    texts that [strptime] reads, none of them a 29 February, when the
    year of today is before 9999. *)
Theorem query_returns_without_leap_days
  (today : date) (book : AddressBook.t) :
  valid_dateb today = true -> year today < 9999 ->
  forallb no_leap_day (dict_values book) = true ->
  exists l, AddressBook.get_upcoming_birthdays today book = Ok l.
Proof.
  intros Ht Hy H. apply query_returns_iff.
  apply forallb_forall. intros r Hr.
  apply (proj1 (forallb_forall _ _) H) in Hr.
  unfold no_leap_day, has_candidate in *.
  destruct (Record_.birthday r) as [b|]; [|reflexivity].
  destruct (strptime (value b)) as [bd|] eqn:S; [|discriminate].
  apply negb_true_iff in Hr. apply strptime_valid in S.
  apply valid_dateb_spec in Ht. destruct Ht as (Hy1 & _).
  destruct bd as [y m d].
  unfold candidate_exists, candidate_date. simpl.
  rewrite (day_exists_every_year y (year today) m d) by (auto; lia).
  destruct (date_ltb _ _); [|now apply (day_exists_every_year y); auto; lia].
  simpl. apply (day_exists_every_year y); auto; lia.
Qed.

Lemma query_returns_without_leap_days_witness :
  exists l,
    AddressBook.get_upcoming_birthdays (mkdate 2027 3 1) book_june = Ok l.
Proof.
  apply (query_returns_without_leap_days (mkdate 2027 3 1) book_june).
  - reflexivity.
  - reflexivity.
  - reflexivity.
Defined.

Lemma leap_year_not_next y : _is_leap y = true -> _is_leap (y + 1) = false.
Proof.
  unfold _is_leap. intros H. apply andb_true_iff in H. destruct H as [H _].
  apply Z.eqb_eq in H.
  replace ((y + 1) mod 4 =? 0) with false; [reflexivity|].
  symmetry. apply Z.eqb_neq. Z.div_mod_to_equations. lia.
Qed.

(** X24: a birthday on 29 February has a candidate date exactly when the
    year of today is a leap year and today is not after its 29 February;
    in every other case a record with such a birthday makes the query
    raise. *)
Theorem leap_day_birthday_candidate (today : date) (y : Z) :
  (candidate_exists today (mkdate y 2 29) = true
   <-> 1 <= year today <= 9999 /\ _is_leap (year today) = true
       /\ date_ltb (mkdate (year today) 2 29) today = false)
  /\ forall (book : AddressBook.t) r b,
       In r (dict_values book) -> Record_.birthday r = Some b ->
       strptime (value b) = Ok (mkdate y 2 29) ->
       candidate_exists today (mkdate y 2 29) = false ->
       exists e, AddressBook.get_upcoming_birthdays today book = Raise e.
Proof.
  split.
  - unfold candidate_exists, candidate_date. simpl.
    rewrite andb_true_iff. split.
    + intros [V0 V1]. assert (V := V0).
      apply valid_dateb_spec in V. simpl in V. destruct V as (Hy & _ & Hd).
      unfold _days_in_month in Hd. simpl in Hd.
      destruct (_is_leap (year today)) eqn:L; simpl in Hd; [|lia].
      split; [assumption|]. split; [reflexivity|].
      destruct (date_ltb _ _); [|reflexivity].
      apply valid_dateb_spec in V1. simpl in V1. destruct V1 as (_ & _ & Hd1).
      unfold _days_in_month in Hd1. simpl in Hd1.
      rewrite (leap_year_not_next _ L) in Hd1. simpl in Hd1. lia.
    + intros (Hy & L & N). rewrite N.
      assert (V : valid_dateb (mkdate (year today) 2 29) = true).
      { apply valid_dateb_spec. simpl. unfold _days_in_month. rewrite L.
        simpl. lia. }
      now rewrite V.
  - intros book r b Hr Hb Hs Hc.
    destruct (AddressBook.get_upcoming_birthdays today book) as [l|e] eqn:Q;
      [|eauto].
    exfalso.
    assert (H := proj1 (query_returns_iff today book) (ex_intro _ l Q)).
    apply (proj1 (forallb_forall _ _) H) in Hr.
    unfold has_candidate in Hr. rewrite Hb, Hs in Hr. congruence.
Qed.

Lemma leap_day_birthday_candidate_witness :
  exists e,
    AddressBook.get_upcoming_birthdays (mkdate 2028 3 1) book_bob = Raise e.
Proof.
  apply (proj2 (leap_day_birthday_candidate (mkdate 2028 3 1) 2000) book_bob
           (snd (contact "Bob" "2222222222" "29.02.2000"))
           (mkField (u "29.02.2000"))).
  - left. reflexivity.
  - reflexivity.
  - reflexivity.
  - reflexivity.
Defined.

(** ** More on the commands *)

Lemma truthy_valid_phone phone :
  isdigit phone = true -> truthy phone = true.
Proof. destruct phone; [discriminate|reflexivity]. Qed.

Lemma add_contact_new_valid
  (book : AddressBook.t) (nm phone : str) (rest : list str) :
  AddressBook.find nm book = None ->
  isdigit phone = true -> List.length phone = 10%nat ->
  add_contact (nm :: phone :: rest) book
  = (msg_added,
     AddressBook.add_record
       (Record_.mk (Name nm) [mkField phone]
          (match rest with e :: _ => e | [] => [] end) None) book).
Proof.
  intros F Hd Hl. unfold add_contact, input_error, add_contact_body.
  rewrite F. unfold Record_.init, Record_.add_phone.
  now rewrite (truthy_valid_phone _ Hd), (Phone_ok _ Hd Hl).
Qed.

(** X13: [add] with a name the book does not have and a phone that
    [Phone] accepts puts a new record last in the book, with that phone
    alone, the email given or none, and no birthday, and touches no
    other record; with a non-empty phone that [Phone] rejects it adds
    nothing; with an empty phone it adds a record without phones. *)
Theorem add_contact_new_name
  (book : AddressBook.t) (nm phone : str) (rest : list str) :
  AddressBook.find nm book = None ->
  (isdigit phone = true /\ List.length phone = 10%nat ->
   add_contact (nm :: phone :: rest) book
   = (msg_added,
      book ++ [(nm, Record_.mk (Name nm) [mkField phone]
                      (match rest with e :: _ => e | [] => [] end) None)])
   /\ AddressBook.find nm (snd (add_contact (nm :: phone :: rest) book))
      = Some (Record_.mk (Name nm) [mkField phone]
                (match rest with e :: _ => e | [] => [] end) None)
   /\ forall k, k <> nm ->
        AddressBook.find k (snd (add_contact (nm :: phone :: rest) book))
        = AddressBook.find k book)
  /\ (truthy phone = true ->
      ~ (isdigit phone = true /\ List.length phone = 10%nat) ->
      add_contact (nm :: phone :: rest) book = (msg_phone_invalid, book))
  /\ add_contact (nm :: [] :: rest) book
     = (msg_added,
        book ++ [(nm, Record_.mk (Name nm) []
                        (match rest with e :: _ => e | [] => [] end) None)]).
Proof.
  intros F.
  assert (A : forall r, Record_.name r = Name nm ->
            AddressBook.add_record r book = book ++ [(nm, r)]).
  { intros r Hr. unfold AddressBook.add_record. rewrite Hr. simpl.
    now apply dict_set_absent. }
  split; [|split].
  - intros [Hd Hl].
    set (r := Record_.mk (Name nm) [mkField phone]
                (match rest with e :: _ => e | [] => [] end) None).
    assert (E := add_contact_new_valid book nm phone rest F Hd Hl).
    fold r in E. rewrite E. simpl snd. rewrite <- (A r eq_refl).
    split; [reflexivity|].
    unfold AddressBook.find, AddressBook.add_record. simpl.
    split; [apply dict_get_set_same|].
    intros k Hk. now apply dict_get_set_other.
  - intros Ht Hbad. unfold add_contact, input_error, add_contact_body.
    rewrite F. unfold Record_.init, Record_.add_phone.
    now rewrite Ht, (Phone_raises _ Hbad).
  - unfold add_contact, input_error, add_contact_body. rewrite F.
    simpl. now rewrite A.
Qed.

Lemma add_contact_new_name_witness :
  (isdigit (u "3333333333") = true /\ List.length (u "3333333333") = 10%nat ->
   add_contact (u "Eve" :: u "3333333333" :: [u "eve@example.org"])
     book_with_ann
   = (msg_added,
      book_with_ann
      ++ [(u "Eve", Record_.mk (Name (u "Eve")) [mkField (u "3333333333")]
                      (match [u "eve@example.org"] with
                       | e :: _ => e | [] => [] end) None)])
   /\ AddressBook.find (u "Eve")
        (snd (add_contact (u "Eve" :: u "3333333333"
                           :: [u "eve@example.org"]) book_with_ann))
      = Some (Record_.mk (Name (u "Eve")) [mkField (u "3333333333")]
                (match [u "eve@example.org"] with
                 | e :: _ => e | [] => [] end) None)
   /\ forall k, k <> u "Eve" ->
        AddressBook.find k
          (snd (add_contact (u "Eve" :: u "3333333333"
                             :: [u "eve@example.org"]) book_with_ann))
        = AddressBook.find k book_with_ann)
  /\ (truthy (u "3333333333") = true ->
      ~ (isdigit (u "3333333333") = true
         /\ List.length (u "3333333333") = 10%nat) ->
      add_contact (u "Eve" :: u "3333333333" :: [u "eve@example.org"])
        book_with_ann
      = (msg_phone_invalid, book_with_ann))
  /\ add_contact (u "Eve" :: [] :: [u "eve@example.org"]) book_with_ann
     = (msg_added,
        book_with_ann
        ++ [(u "Eve", Record_.mk (Name (u "Eve")) []
                        (match [u "eve@example.org"] with
                         | e :: _ => e | [] => [] end) None)]).
Proof.
  apply (add_contact_new_name book_with_ann (u "Eve") (u "3333333333")
           [u "eve@example.org"]).
  reflexivity.
Defined.

(** X14: [change] on a name the book has answers that the phone is not
    found when the record has no phone with the old value, and leaves the
    book as it is; otherwise it rewrites the first phone with that value,
    keeps every other record, and answers that the contact is updated. *)
Theorem change_contact_on_known_name
  (book : AddressBook.t) (nm old new : str) (record : Record_.t) :
  AddressBook.find nm book = Some record ->
  (Record_.find_phone old record = None ->
   change_contact [nm; old; new] book
   = (u "Phone number not found.", book))
  /\ (forall p, Record_.find_phone old record = Some p ->
      exists record',
        Record_.edit_phone old new record = Ok record'
        /\ change_contact [nm; old; new] book
           = (msg_updated, store nm record' book)
        /\ AddressBook.find nm (store nm record' book) = Some record'
        /\ (exists x, Record_.find_phone new record' = Some x
                      /\ value x = new)
        /\ map fst (store nm record' book) = map fst book
        /\ forall k, k <> nm ->
             AddressBook.find k (store nm record' book)
             = AddressBook.find k book).
Proof.
  intros F. unfold change_contact, input_error, change_contact_body.
  rewrite F. split.
  - intros H. unfold Record_.find_phone in H.
    assert (H' := proj1 (find_phone_none _ _) H).
    now rewrite (proj1 (edit_phone_spec old new record) H').
  - intros p Hp.
    destruct (Record_.edit_phone old new record) as [record'|e] eqn:E.
    + exists record'. split; [reflexivity|]. split; [reflexivity|].
      unfold store, AddressBook.find.
      split; [apply dict_get_set_same|]. split.
      * unfold Record_.edit_phone in E.
        destruct (Record_.edit_loop _ _ _) as [ps|] eqn:L; [|discriminate].
        injection E as <-. apply edit_loop_some in L.
        destruct L as (b & q & a & _ & _ & _ & ->).
        unfold Record_.find_phone. simpl.
        destruct (find (fun p => str_eqb (value p) new)
                    (b ++ mkField new :: a)) as [x|] eqn:G.
        -- exists x. split; [reflexivity|]. now apply find_phone_some in G.
        -- exfalso.
           apply (proj1 (find_phone_none _ _) G (mkField new)); [|reflexivity].
           apply in_or_app. right. now left.
      * split.
        -- apply dict_set_keys. unfold dict_contains.
           unfold AddressBook.find in F. now rewrite F.
        -- intros k Hk. now apply dict_get_set_other.
    + exfalso. unfold Record_.edit_phone in E.
      destruct (Record_.edit_loop _ _ _) eqn:L; [discriminate|].
      apply find_phone_some in Hp. destruct Hp as [Hin Hv].
      now apply (proj1 (edit_loop_none _ _ _) L p).
Qed.

Lemma change_contact_on_known_name_witness :
  (Record_.find_phone (u "1111111111") ann_one_phone = None ->
   change_contact [u "Ann"; u "1111111111"; u "2222222222"] book_with_ann
   = (u "Phone number not found.", book_with_ann))
  /\ (forall p, Record_.find_phone (u "1111111111") ann_one_phone = Some p ->
      exists record',
        Record_.edit_phone (u "1111111111") (u "2222222222") ann_one_phone
        = Ok record'
        /\ change_contact [u "Ann"; u "1111111111"; u "2222222222"]
             book_with_ann
           = (msg_updated, store (u "Ann") record' book_with_ann)
        /\ AddressBook.find (u "Ann") (store (u "Ann") record' book_with_ann)
           = Some record'
        /\ (exists x, Record_.find_phone (u "2222222222") record' = Some x
                      /\ value x = u "2222222222")
        /\ map fst (store (u "Ann") record' book_with_ann)
           = map fst book_with_ann
        /\ forall k, k <> u "Ann" ->
             AddressBook.find k (store (u "Ann") record' book_with_ann)
             = AddressBook.find k book_with_ann).
Proof.
  apply (change_contact_on_known_name book_with_ann (u "Ann")
           (u "1111111111") (u "2222222222") ann_one_phone).
  reflexivity.
Defined.

(** X15: on a name the book has, [add-birthday] with a text that
    [strptime] reads stores that text, which [show-birthday] then shows,
    whatever birthday was there before, and keeps the phones, the email
    and every other record; with a text that [strptime] does not read it
    answers with the validation message and leaves the book as it is. *)
Theorem add_birthday_then_show_birthday
  (book : AddressBook.t) (nm b : str) (record : Record_.t) :
  AddressBook.find nm book = Some record ->
  ((exists d, strptime b = Ok d) ->
   add_birthday [nm; b] book
   = (u "Birthday added for " ++ nm ++ u ".",
      store nm (Record_.set_birthday record (Some (mkField b))) book)
   /\ show_birthday [nm] (snd (add_birthday [nm; b] book))
      = (nm ++ u "'s birthday is " ++ b, snd (add_birthday [nm; b] book))
   /\ AddressBook.find nm (snd (add_birthday [nm; b] book))
      = Some (Record_.set_birthday record (Some (mkField b)))
   /\ forall k, k <> nm ->
        AddressBook.find k (snd (add_birthday [nm; b] book))
        = AddressBook.find k book)
  /\ ((forall d, strptime b <> Ok d) ->
      add_birthday [nm; b] book = (msg_date_invalid, book))
  /\ (Record_.birthday record = None ->
      show_birthday [nm] book
      = (u "No birthday found for " ++ nm ++ u ".", book)).
Proof.
  intros F. split; [|split].
  - intros [d Hd].
    assert (A : add_birthday [nm; b] book
                = (u "Birthday added for " ++ nm ++ u ".",
                   store nm (Record_.set_birthday record (Some (mkField b)))
                     book)).
    { unfold add_birthday, input_error, add_birthday_body. rewrite F.
      unfold Record_.add_birthday.
      now rewrite (proj1 (Birthday_spec b) d Hd). }
    rewrite A. split; [reflexivity|]. simpl.
    unfold show_birthday, input_error, show_birthday_body, store,
      AddressBook.find.
    rewrite dict_get_set_same. simpl.
    split; [reflexivity|]. split; [reflexivity|].
    intros k Hk. now apply dict_get_set_other.
  - intros H. unfold add_birthday, input_error, add_birthday_body.
    rewrite F. unfold Record_.add_birthday.
    now rewrite (proj2 (Birthday_spec b) H).
  - intros H. unfold show_birthday, input_error, show_birthday_body.
    now rewrite F, H.
Qed.

Lemma add_birthday_then_show_birthday_witness :
  ((exists d, strptime (u "5.3.1999") = Ok d) ->
   add_birthday [u "Ann"; u "5.3.1999"] book_with_ann
   = (u "Birthday added for " ++ u "Ann" ++ u ".",
      store (u "Ann")
        (Record_.set_birthday ann_one_phone (Some (mkField (u "5.3.1999"))))
        book_with_ann)
   /\ show_birthday [u "Ann"]
        (snd (add_birthday [u "Ann"; u "5.3.1999"] book_with_ann))
      = (u "Ann" ++ u "'s birthday is " ++ u "5.3.1999",
         snd (add_birthday [u "Ann"; u "5.3.1999"] book_with_ann))
   /\ AddressBook.find (u "Ann")
        (snd (add_birthday [u "Ann"; u "5.3.1999"] book_with_ann))
      = Some (Record_.set_birthday ann_one_phone
                (Some (mkField (u "5.3.1999"))))
   /\ forall k, k <> u "Ann" ->
        AddressBook.find k
          (snd (add_birthday [u "Ann"; u "5.3.1999"] book_with_ann))
        = AddressBook.find k book_with_ann)
  /\ ((forall d, strptime (u "5.3.1999") <> Ok d) ->
      add_birthday [u "Ann"; u "5.3.1999"] book_with_ann
      = (msg_date_invalid, book_with_ann))
  /\ (Record_.birthday ann_one_phone = None ->
      show_birthday [u "Ann"] book_with_ann
      = (u "No birthday found for " ++ u "Ann" ++ u ".", book_with_ann)).
Proof.
  apply (add_birthday_then_show_birthday book_with_ann (u "Ann")
           (u "5.3.1999") ann_one_phone).
  reflexivity.
Defined.

(** X16: on a name the book does not have, [change], [add-birthday],
    [phone] and [show-birthday] answer that the contact, the phone or the
    birthday is not found, and leave the book as it is. *)
Theorem commands_on_unknown_name
  (book : AddressBook.t) (nm a b : str) :
  AddressBook.find nm book = None ->
  change_contact [nm; a; b] book
  = (u "Contact " ++ nm ++ u " not found.", book)
  /\ add_birthday [nm; a] book
     = (u "Contact " ++ nm ++ u " not found.", book)
  /\ show_phone [nm] book = (u "No phone found for " ++ nm ++ u ".", book)
  /\ show_birthday [nm] book
     = (u "No birthday found for " ++ nm ++ u ".", book).
Proof.
  intros F.
  unfold change_contact, add_birthday, show_phone, show_birthday,
    input_error, change_contact_body, add_birthday_body, show_phone_body,
    show_birthday_body.
  rewrite F. auto.
Qed.

Lemma commands_on_unknown_name_witness :
  change_contact [u "Zoe"; u "1111111111"; u "2222222222"] book_with_ann
  = (u "Contact " ++ u "Zoe" ++ u " not found.", book_with_ann)
  /\ add_birthday [u "Zoe"; u "1111111111"] book_with_ann
     = (u "Contact " ++ u "Zoe" ++ u " not found.", book_with_ann)
  /\ show_phone [u "Zoe"] book_with_ann
     = (u "No phone found for " ++ u "Zoe" ++ u ".", book_with_ann)
  /\ show_birthday [u "Zoe"] book_with_ann
     = (u "No birthday found for " ++ u "Zoe" ++ u ".", book_with_ann).
Proof.
  apply (commands_on_unknown_name book_with_ann (u "Zoe") (u "1111111111")
           (u "2222222222")).
  reflexivity.
Defined.

Lemma join_cons (sep x : str) (l : list str) :
  join sep (x :: l) = x ++ flat_map (fun y => sep ++ y) l.
Proof.
  revert x. induction l as [|y l IH]; intros x; simpl.
  - now rewrite app_nil_r.
  - change (x ++ sep ++ join sep (y :: l)
            = x ++ (sep ++ y) ++ flat_map (fun y => sep ++ y) l).
    now rewrite IH, <- app_assoc.
Qed.

(** The accumulation of [show_phone] is the joining of the phones. *)
Lemma show_phone_join (p : Field) (ps : list Field) :
  fold_left (fun acc q => acc ++ u ", " ++ Field_str q) ps (Field_str p)
  = join (u ", ") (map Field_str (p :: ps)).
Proof.
  simpl map. rewrite join_cons. generalize (Field_str p). 
  induction ps as [|q ps IH]; intros a; simpl.
  - now rewrite app_nil_r.
  - rewrite IH. now rewrite <- !app_assoc.
Qed.

(** X17: after [add] with a phone that [Phone] accepts, [phone] shows for
    that name the phones the record had before, in their order, and then
    the new one, joined by a comma and a blank. *)
Theorem add_contact_then_show_phone
  (book : AddressBook.t) (nm phone : str) (rest : list str) :
  isdigit phone = true /\ List.length phone = 10%nat ->
  fst (show_phone [nm] (snd (add_contact (nm :: phone :: rest) book)))
  = nm ++ u ": "
    ++ join (u ", ")
         (match AddressBook.find nm book with
          | Some record => map Field_str (Record_.phones record)
          | None => []
          end ++ [phone]).
Proof.
  intros [Hd Hl].
  assert (S : forall (b : AddressBook.t) r,
            AddressBook.find nm b = Some r ->
            forall p ps, Record_.phones r = p :: ps ->
            fst (show_phone [nm] b)
            = nm ++ u ": " ++ join (u ", ") (map Field_str (p :: ps))).
  { intros b r Hr p ps Hp.
    unfold show_phone, input_error, show_phone_body. rewrite Hr, Hp.
    simpl fst. now rewrite show_phone_join. }
  destruct (AddressBook.find nm book) as [record|] eqn:F.
  - unfold add_contact, input_error, add_contact_body. rewrite F.
    rewrite (truthy_valid_phone _ Hd). unfold Record_.add_phone.
    rewrite (Phone_ok _ Hd Hl). simpl snd.
    set (r1 := Record_.set_phones record (Record_.phones record ++ [mkField phone])).
    set (r2 := if truthy _ then Record_.set_email r1 _ else r1).
    assert (P : Record_.phones r2 = Record_.phones record ++ [mkField phone])
      by (unfold r2; now destruct (truthy _)).
    destruct (Record_.phones r2) as [|p ps] eqn:Q.
    { destruct (Record_.phones record); discriminate. }
    rewrite (S (store nm r2 book) r2 (dict_get_set_same _ _ _) p ps Q).
    now rewrite P, map_app.
  - rewrite (add_contact_new_valid book nm phone rest F Hd Hl). simpl snd.
    apply (S _ (Record_.mk (Name nm) [mkField phone]
                  (match rest with e :: _ => e | [] => [] end) None)
             (dict_get_set_same _ _ _) (mkField phone) [] eq_refl).
Qed.

Lemma add_contact_then_show_phone_witness :
  fst (show_phone [u "Ann"]
         (snd (add_contact (u "Ann" :: u "2222222222" :: []) book_with_ann)))
  = u "Ann" ++ u ": "
    ++ join (u ", ")
         (match AddressBook.find (u "Ann") book_with_ann with
          | Some record => map Field_str (Record_.phones record)
          | None => []
          end ++ [u "2222222222"]).
Proof.
  apply (add_contact_then_show_phone book_with_ann (u "Ann")
           (u "2222222222") []).
  split; reflexivity.
Defined.

(** X18: a command that does not answer with its message of success
    leaves the book as it is: [add], [change] and [add-birthday] change
    the book only when they answer that the contact was added or updated,
    or that the birthday was added. *)
Theorem failed_command_leaves_book_unchanged
  (args : list str) (book : AddressBook.t) :
  (snd (add_contact args book) = book
   \/ fst (add_contact args book) = msg_added
   \/ fst (add_contact args book) = msg_updated)
  /\ (snd (change_contact args book) = book
      \/ fst (change_contact args book) = msg_updated)
  /\ (snd (add_birthday args book) = book
      \/ exists nm b,
           args = [nm; b]
           /\ fst (add_birthday args book)
              = u "Birthday added for " ++ nm ++ u ".").
Proof.
  split; [|split].
  - unfold add_contact, input_error, add_contact_body.
    destruct args as [|nm [|phone rest]]; [now left|now left|].
    destruct (AddressBook.find nm book).
    + destruct (if truthy phone then Record_.add_phone phone t else Ok t)
        as [r|[]]; simpl; auto.
    + destruct (Record_.init nm (Some phone) _) as [r|[]]; simpl; auto.
  - unfold change_contact, input_error, change_contact_body.
    destruct args as [|nm [|o [|n [|x rest]]]]; try (now left).
    destruct (AddressBook.find nm book); [|now left].
    destruct (Record_.edit_phone o n t) as [r|[]]; simpl; auto.
  - unfold add_birthday, input_error, add_birthday_body.
    destruct args as [|nm [|b [|x rest]]]; try (now left).
    destruct (AddressBook.find nm book); [|now left].
    destruct (Record_.add_birthday b t) as [r|[]]; simpl; eauto.
Qed.

(** X19: with fewer arguments than they unpack, [add], [change] and
    [add-birthday] answer with the text of the unpacking error, which
    tells how many values were expected and got; with more than they
    unpack, [change] and [add-birthday] answer with the text of that
    error; [phone] and [show-birthday] without argument answer with the
    message for missing arguments.  The book is left as it is. *)
Theorem argument_count_errors (args : list str) (book : AddressBook.t) :
  ((List.length args < 2)%nat ->
   add_contact args book
   = (u "not enough values to unpack (expected at least 2, got "
      ++ str_of_nat (List.length args) ++ u ")", book))
  /\ ((List.length args < 3)%nat ->
      change_contact args book
      = (u "not enough values to unpack (expected 3, got "
         ++ str_of_nat (List.length args) ++ u ")", book))
  /\ ((List.length args < 2)%nat ->
      add_birthday args book
      = (u "not enough values to unpack (expected 2, got "
         ++ str_of_nat (List.length args) ++ u ")", book))
  /\ ((3 < List.length args)%nat ->
      change_contact args book
      = (u "too many values to unpack (expected 3)", book))
  /\ ((2 < List.length args)%nat ->
      add_birthday args book
      = (u "too many values to unpack (expected 2)", book))
  /\ show_phone [] book = (msg_missing_args, book)
  /\ show_birthday [] book = (msg_missing_args, book).
Proof.
  destruct (short_args_message args book) as (A & B & C).
  split; [exact A|]. split; [exact B|]. split; [exact C|].
  split; [|split; [|split; reflexivity]].
  - intros H. destruct args as [|a [|b [|c [|d args]]]]; simpl in H;
      try lia; reflexivity.
  - intros H. destruct args as [|a [|b [|c args]]]; simpl in H;
      try lia; reflexivity.
Qed.

(** X20: [all] on the empty book answers that there are no contacts,
    and after a first [add] with a phone that [Phone] accepts it shows
    the name, the phone and, when one was given, the email. *)
Theorem show_all_after_first_add (nm phone : str) (rest : list str) :
  isdigit phone = true /\ List.length phone = 10%nat ->
  show_all_contacts AddressBook.init
  = (u "No contacts found.", AddressBook.init)
  /\ fst (show_all_contacts
            (snd (add_contact (nm :: phone :: rest) AddressBook.init)))
     = nm ++ u ": " ++ phone
       ++ match rest with
          | [] => []
          | em :: _ => if truthy em then u ", email: " ++ em else []
          end.
Proof.
  intros [Hd Hl]. split; [reflexivity|].
  unfold add_contact, input_error, add_contact_body. simpl AddressBook.find.
  cbv iota. unfold Record_.init, Record_.add_phone.
  rewrite (truthy_valid_phone _ Hd), (Phone_ok _ Hd Hl). simpl.
  unfold Record_str. simpl.
  destruct rest as [|em rest]; simpl; [now rewrite app_nil_r|].
  destruct (truthy em); now rewrite !app_nil_r.
Qed.

Lemma show_all_after_first_add_witness :
  show_all_contacts AddressBook.init
  = (u "No contacts found.", AddressBook.init)
  /\ fst (show_all_contacts
            (snd (add_contact (u "Ann" :: u "1111111111"
                               :: [u "ann@example.org"]) AddressBook.init)))
     = u "Ann" ++ u ": " ++ u "1111111111"
       ++ match [u "ann@example.org"] with
          | [] => []
          | em :: _ => if truthy em then u ", email: " ++ em else []
          end.
Proof.
  apply (show_all_after_first_add (u "Ann") (u "1111111111")
           [u "ann@example.org"]).
  split; reflexivity.
Defined.

(** ** [parse_input] *)

Lemma lstrip_nil s : lstrip s = [] <-> forallb isspace_char s = true.
Proof.
  induction s as [|c s IH]; simpl; [tauto|].
  destruct (isspace_char c); simpl; [assumption|].
  split; discriminate.
Qed.

Lemma lstrip_keeps s c :
  In c s -> isspace_char c = false -> lstrip s <> [].
Proof.
  intros Hin Hc H. apply lstrip_nil in H.
  rewrite forallb_forall in H. rewrite (H c Hin) in Hc. discriminate.
Qed.

Lemma strip_nil s : strip s = [] <-> forallb isspace_char s = true.
Proof.
  unfold strip. split.
  - intros H. destruct (forallb isspace_char s) eqn:E; [reflexivity|].
    exfalso.
    destruct (lstrip s) as [|c t] eqn:L.
    { apply lstrip_nil in L. congruence. }
    assert (Hc : isspace_char c = false).
    { clear - L. induction s as [|a s IH]; simpl in L; [discriminate|].
      destruct (isspace_char a) eqn:A; [auto|]. now injection L as <- _. }
    assert (R : rev (lstrip (rev (c :: t))) = []) by exact H.
    apply (f_equal (@rev _)) in R. rewrite rev_involutive in R. simpl in R.
    apply (lstrip_keeps (rev t ++ [c]) c); auto.
    apply in_or_app. right. now left.
  - intros H. apply lstrip_nil in H. now rewrite H.
Qed.

Lemma split_scan_words wd s :
  forallb (fun c => negb (isspace_char c)) wd = true ->
  Forall word (split_scan wd s).
Proof.
  revert wd. induction s as [|c s IH]; simpl; intros wd Hw.
  - destruct wd as [|a wd]; constructor; [|constructor].
    split.
    + intros H. apply (f_equal (@List.length _)) in H.
      rewrite length_rev in H. discriminate.
    + apply forallb_forall. intros x Hx. apply in_rev in Hx.
      now apply (proj1 (forallb_forall _ _) Hw).
  - destruct (isspace_char c) eqn:C.
    + destruct wd as [|a wd]; [now apply IH|].
      constructor; [|now apply IH]. split.
      * intros H. apply (f_equal (@List.length _)) in H.
        rewrite length_rev in H. discriminate.
      * apply forallb_forall. intros x Hx. apply in_rev in Hx.
        now apply (proj1 (forallb_forall _ _) Hw).
    + apply IH. simpl. now rewrite C.
Qed.

Lemma split_scan_nil wd s :
  split_scan wd s = [] <-> wd = [] /\ forallb isspace_char s = true.
Proof.
  revert wd. induction s as [|c s IH]; simpl; intros wd.
  - destruct wd; split; try tauto; try discriminate. intros [? _]. discriminate.
  - destruct (isspace_char c) eqn:C; simpl.
    + destruct wd as [|a wd].
      * rewrite IH. tauto.
      * split; [discriminate|]. intros [? _]. discriminate.
    + rewrite IH. split; [intros [? _]; discriminate|intros [_ ?]; discriminate].
Qed.

(** Reading a word: its characters go to the word in hand. *)
Lemma split_scan_word w wd s :
  forallb (fun c => negb (isspace_char c)) w = true ->
  split_scan wd (w ++ s) = split_scan (rev w ++ wd) s.
Proof.
  revert wd. induction w as [|c w IH]; simpl; intros wd H; [reflexivity|].
  apply andb_true_iff in H. destruct H as [Hc Hw].
  apply negb_true_iff in Hc. rewrite Hc, (IH _ Hw).
  now rewrite <- app_assoc.
Qed.

Lemma split_scan_blank wd s :
  split_scan wd (32%N :: s)
  = match wd with
    | [] => split_scan [] s
    | _ => rev wd :: split_scan [] s
    end.
Proof. reflexivity. Qed.

Lemma split_join_words (ws : list str) :
  Forall word ws -> split (join (u " ") ws) = ws.
Proof.
  unfold split. induction 1 as [|w ws [Hne Hw] Hws IH]; [reflexivity|].
  destruct ws as [|w' ws].
  - simpl. rewrite <- (app_nil_r w), (split_scan_word _ _ _ Hw).
    rewrite app_nil_r. simpl.
    destruct (rev w) eqn:R.
    + apply (f_equal (@rev _)) in R. rewrite rev_involutive in R. now subst.
    + now rewrite <- R, rev_involutive, app_nil_r.
  - change (join (u " ") (w :: w' :: ws))
      with (w ++ u " " ++ join (u " ") (w' :: ws)).
    rewrite (split_scan_word _ _ _ Hw), app_nil_r.
    change (u " " ++ join (u " ") (w' :: ws))
      with (32%N :: join (u " ") (w' :: ws)).
    rewrite split_scan_blank.
    destruct (rev w) eqn:R.
    + apply (f_equal (@rev _)) in R. rewrite rev_involutive in R. now subst.
    + rewrite <- R, rev_involutive. now rewrite IH.
Qed.

(** X21: [parse_input] never raises, whatever [lower] does: a blank
    input gives the empty command and no argument; any other input has a
    first word, whose lower case is the command, and the arguments are
    the words after it, none empty and none with a blank in it. *)
Theorem parse_input_gives_words (lower : str -> str) (user_input : str) :
  exists cmd args,
    parse_input lower user_input = Ok (cmd, args)
    /\ Forall word args
    /\ (forallb isspace_char user_input = true -> cmd = [] /\ args = [])
    /\ (forallb isspace_char user_input = false ->
        exists w, word w /\ split user_input = w :: args /\ cmd = lower w).
Proof.
  unfold parse_input.
  assert (W := split_scan_words [] user_input eq_refl).
  fold (split user_input) in W.
  destruct (forallb isspace_char user_input) eqn:E.
  - rewrite (proj2 (strip_nil _) E). simpl.
    exists [], []. repeat split; auto; discriminate.
  - destruct (strip user_input) as [|c t] eqn:S.
    { apply strip_nil in S. congruence. }
    simpl. destruct (split user_input) as [|w ws] eqn:P.
    { apply split_scan_nil in P. destruct P. congruence. }
    inversion W; subst.
    exists (lower w), ws. repeat split; auto; try discriminate.
    exists w. auto.
Qed.

(** X22: a command word and argument words written with one blank
    between them are read back by [parse_input] as they are, the command
    in lower case. *)
Theorem parse_input_reads_joined_words
  (lower : str -> str) (cmd : str) (args : list str) :
  Forall word (cmd :: args) ->
  parse_input lower (join (u " ") (cmd :: args)) = Ok (lower cmd, args).
Proof.
  intros H. unfold parse_input.
  assert (S := split_join_words _ H). rewrite S.
  destruct (strip (join (u " ") (cmd :: args))) eqn:T; [|reflexivity].
  exfalso. apply strip_nil in T.
  assert (N := proj2 (split_scan_nil [] (join (u " ") (cmd :: args)))
                 (conj eq_refl T)).
  fold (split (join (u " ") (cmd :: args))) in N. congruence.
Qed.

Lemma parse_input_reads_joined_words_witness :
  parse_input (fun s => s)
    (join (u " ") (u "add" :: [u "Ann"; u "1111111111"]))
  = Ok ((fun s => s) (u "add"), [u "Ann"; u "1111111111"]).
Proof.
  apply (parse_input_reads_joined_words (fun s => s) (u "add")
           [u "Ann"; u "1111111111"]).
  repeat constructor; discriminate.
Defined.
